(** * plot.py: aggregation, normalisation and labelling of benchmark results

    A shallow embedding of [src/plot.py].  The script reads one CSV file per
    (setup, trace, scheduler), reduces three integer columns to
    [mean, std, min, max], normalises every metric group by its largest
    maximum, places one label per metric group and saves one figure per
    setup; it does so twice, for job metrics and for task metrics.

    Numbers.  CSV cells are Python integers ([Z]).  numpy's float64 results
    are modelled by [npfloat]: a real number, or one of the special values
    inf, -inf, nan, with the IEEE rules for division by zero and for nan
    propagation.  Rounding is not modelled: a finite value is the exact real
    result, and zero carries no sign (no divisor of the program is -0.0). *)

From Stdlib Require Import Reals Lra ZArith.
From stdpp Require Import gmap strings list.

Local Open Scope string_scope.
Local Open Scope list_scope.

(** ** Python exceptions and results *)

Inductive exn : Type :=
  | FileNotFoundError (path : string)
  | KeyError (key : string)
  | IndexError
  | ValueError_int          (* int() on text that is no integer literal *)
  | ValueError_reduction.   (* np.min / np.max of a zero-size array *)

Inductive result (A : Type) : Type :=
  | Ok (a : A)
  | Raise (e : exn).
Arguments Ok {A} a.
Arguments Raise {A} e.

#[global] Instance result_ret : MRet result := fun _ a => Ok a.
#[global] Instance result_bind : MBind result := fun _ _ f m =>
  match m with
  | Ok a => f a
  | Raise e => Raise e
  end.

Definition dict_get {V} (d : gmap string V) (k : string) : result V :=
  match d !! k with
  | Some v => Ok v
  | None => Raise (KeyError k)
  end.

Definition list_get {A} (l : list A) (i : nat) : result A :=
  match l !! i with
  | Some v => Ok v
  | None => Raise IndexError
  end.

(** ** numpy's float64 *)

Inductive npfloat : Type :=
  | Fin (r : R)
  | PInf
  | NInf
  | NaN.

Definition of_int (z : Z) : npfloat := Fin (IZR z).

Definition np_isnan (a : npfloat) : bool :=
  match a with
  | NaN => true
  | _ => false
  end.

(** [a / b] on float64: a finite quotient when the divisor is not zero,
    an infinity of the dividend's sign for a non-zero dividend over zero,
    nan for 0/0 (numpy warns, it does not raise). *)
Definition np_true_divide (a b : npfloat) : npfloat :=
  match a, b with
  | NaN, _ | _, NaN => NaN
  | Fin x, Fin y =>
      if Req_dec_T y 0 then
        if Rlt_dec 0 x then PInf
        else if Rlt_dec x 0 then NInf
        else NaN
      else Fin (x / y)
  | Fin _, (PInf | NInf) => Fin 0
  | PInf, Fin y => if Rlt_dec y 0 then NInf else PInf
  | NInf, Fin y => if Rlt_dec y 0 then PInf else NInf
  | (PInf | NInf), (PInf | NInf) => NaN
  end.

Definition np_add (a b : npfloat) : npfloat :=
  match a, b with
  | NaN, _ | _, NaN => NaN
  | Fin x, Fin y => Fin (x + y)
  | PInf, NInf | NInf, PInf => NaN
  | PInf, _ | _, PInf => PInf
  | NInf, _ | _, NInf => NInf
  end.

Definition np_sqrt (a : npfloat) : npfloat :=
  match a with
  | Fin x => if Rlt_dec x 0 then NaN else Fin (sqrt x)
  | PInf => PInf
  | NInf | NaN => NaN
  end.

(** np.maximum and np.minimum propagate nan. *)
Definition np_maximum (a b : npfloat) : npfloat :=
  match a, b with
  | NaN, _ | _, NaN => NaN
  | PInf, _ | _, PInf => PInf
  | NInf, c | c, NInf => c
  | Fin x, Fin y => Fin (Rmax x y)
  end.

Definition np_minimum (a b : npfloat) : npfloat :=
  match a, b with
  | NaN, _ | _, NaN => NaN
  | NInf, _ | _, NInf => NInf
  | PInf, c | c, PInf => c
  | Fin x, Fin y => Fin (Rmin x y)
  end.

(** np.max / np.min of a sequence: a reduction without identity, so the
    empty sequence raises ValueError. *)
Definition np_max (l : list npfloat) : result npfloat :=
  match l with
  | [] => Raise ValueError_reduction
  | x :: xs => Ok (foldl np_maximum x xs)
  end.

Definition np_min (l : list npfloat) : result npfloat :=
  match l with
  | [] => Raise ValueError_reduction
  | x :: xs => Ok (foldl np_minimum x xs)
  end.

(** ** Aggregation (plot.py 35-37 and 125-127) *)

Definition np_sum (l : list Z) : Z := foldr Z.add 0%Z l.

(** np.mean: the sum over the count; on the empty list 0.0/0 = nan. *)
Definition np_mean (l : list Z) : npfloat :=
  np_true_divide (of_int (np_sum l)) (Fin (INR (length l))).

(** Sum of the squared deviations from [mu]. *)
Definition sq_dev (mu : R) (l : list Z) : R :=
  foldr (fun z acc => ((IZR z - mu) * (IZR z - mu) + acc)%R) 0%R l.

(** np.var with numpy's ddof parameter: the divisor is n - ddof. *)
Definition np_var (ddof : nat) (l : list Z) : npfloat :=
  match np_mean l with
  | Fin mu => np_true_divide (Fin (sq_dev mu l)) (Fin (INR (length l - ddof)))
  | _ => NaN
  end.

(** np.std as the script calls it: ddof is left at its default, 0. *)
Definition np_std (l : list Z) : npfloat := np_sqrt (np_var 0 l).

(** [[np.mean(c), np.std(c), np.min(c), np.max(c)]], evaluated left to
    right. *)
Definition summary (col : list Z) : result (list npfloat) :=
  let a := np_mean col in
  let s := np_std col in
  lo ← np_min (of_int <$> col);
  hi ← np_max (of_int <$> col);
  mret [a; s; lo; hi].

(** ** Configuration (plot.py 10-13) *)

Definition setups : list string :=
  ["setup"; "setup-heterogeneous"; "setup-distributed"].
Definition traces : list string := ["shell"; "askalon"; "pegasus"].
Definition schedulers : list string := ["FCP"; "Lottery"; "DS"].

(** ** Input files

    A CSV file as csv.DictReader yields it: the rows after the header, each
    a dictionary from column name to cell text.  A cell is either text that
    int() accepts, carried with its value, or any other text. *)

Inductive cell : Type :=
  | IntText (z : Z)
  | OtherText.

(** The files below ./results, by path; [None] is a missing file. *)
Abbreviation files := (string → option (list (gmap string cell))).

Definition open_csv (fs : files) (path : string)
  : result (list (gmap string cell)) :=
  match fs path with
  | Some rows => Ok rows
  | None => Raise (FileNotFoundError path)
  end.

(** [int(row[col])] *)
Definition int (row : gmap string cell) (col : string) : result Z :=
  c ← dict_get row col;
  match c with
  | IntText z => Ok z
  | OtherText => Raise ValueError_int
  end.

(** A Python [for] loop over a list, threading the loop state; the first
    exception ends it. *)
Fixpoint for_each {A S} (l : list A) (body : S → A → result S) (s : S)
  : result S :=
  match l with
  | [] => Ok s
  | x :: xs => s' ← body s x; for_each xs body s'
  end.

(** The two passes of the script differ in the constants gathered here and
    in their label placement ([job_labels], [task_labels] below). *)
Record pass : Type := {
  csv_name : string;                     (* file read per triple *)
  columns : string * string * string;    (* columns read, in order *)
  keys : string * string * string;       (* keys the summaries are stored at *)
  metrics : list string;                 (* plot.py 46 / 136 *)
  suffix : string                        (* appended to the setup name *)
}.

(** plot.py 28-34 / 118-124: one append per column and row. *)
Definition read_row (p : pass) (acc : list Z * list Z * list Z)
    (row : gmap string cell) : result (list Z * list Z * list Z) :=
  let '(c1, c2, c3) := columns p in
  let '(l1, l2, l3) := acc in
  x ← int row c1;
  y ← int row c2;
  z ← int row c3;
  mret (l1 ++ [x], l2 ++ [y], l3 ++ [z]).

Definition csv_path (p : pass) (setup trace sched : string) : string :=
  "./results/" +:+ trace +:+ "_" +:+ setup +:+ "_" +:+ sched +:+ "/"
    +:+ csv_name p.

(** plot.py 25-37 / 115-127: the dictionary results[setup][trace][sched]. *)
Definition load_metrics (p : pass) (fs : files) (setup trace sched : string)
  : result (gmap string (list npfloat)) :=
  let '(k1, k2, k3) := keys p in
  rows ← open_csv fs (csv_path p setup trace sched);
  '(l1, l2, l3) ← for_each rows (read_row p) ([], [], []);
  s1 ← summary l1;
  s2 ← summary l2;
  s3 ← summary l3;
  mret (<[k3 := s3]> (<[k2 := s2]> (<[k1 := s1]> ∅))).

(** Filling a fresh dictionary, one key per iteration.  The script assigns
    the empty dictionary first and fills it through the parent; the inner
    dictionaries are reachable through [results] only, so building the value
    and then storing it yields the same table. *)
Definition build {V} (ks : list string) (f : string → result V)
  : result (gmap string V) :=
  for_each ks (fun d k => v ← f k; mret (<[k := v]> d)) ∅.

Abbreviation table :=
  (gmap string (gmap string (gmap string (gmap string (list npfloat))))).

(** plot.py 18-37 / 108-127: [results = {}] and the three nested loops. *)
Definition load_results (p : pass) (fs : files) : result table :=
  build setups (fun setup =>
    build traces (fun trace =>
      build schedulers (fun sched => load_metrics p fs setup trace sched))).

(** ** Rendering *)

(** The four lists composed per subplot (plot.py 56-59 / 146-149). *)
Record series : Type := {
  avg : list npfloat;
  std : list npfloat;
  mn : list npfloat;
  mx : list npfloat
}.

(** [results[setup][trace][sched][metric][i]] *)
Definition stat (res : table) (setup trace sched metric : string) (i : nat)
  : result npfloat :=
  d1 ← dict_get res setup;
  d2 ← dict_get d1 trace;
  d3 ← dict_get d2 sched;
  l ← dict_get d3 metric;
  list_get l i.

(** plot.py 63-66 / 153-156 *)
Definition append_stats (res : table) (setup trace metric : string)
    (s : series) (sched : string) : result series :=
  a ← stat res setup trace sched metric 0;
  d ← stat res setup trace sched metric 1;
  lo ← stat res setup trace sched metric 2;
  hi ← stat res setup trace sched metric 3;
  mret {| avg := avg s ++ [a]; std := std s ++ [d];
          mn := mn s ++ [lo]; mx := mx s ++ [hi] |}.

(** plot.py 56-66 / 146-156 *)
Definition collect (p : pass) (res : table) (setup trace : string)
  : result series :=
  for_each (metrics p)
    (fun s metric => for_each schedulers (append_stats res setup trace metric) s)
    {| avg := []; std := []; mn := []; mx := [] |}.

(** [l[a:b]] and [l[a:b] = v] for 0 <= a <= b; Python clamps both bounds to
    the length of the list, as [take] and [drop] do. *)
Definition slice {A} (l : list A) (a b : nat) : list A :=
  take (b - a) (drop a l).

Definition set_slice {A} (l : list A) (a b : nat) (v : list A) : list A :=
  take a l ++ v ++ drop b l.

(** [l[a:b] /= d]: the slice is a list, so the quotient is numpy's
    element-wise one (the list over a numpy scalar), stored back into the
    list element by element. *)
Definition idiv_slice (l : list npfloat) (a b : nat) (d : npfloat)
  : list npfloat :=
  set_slice l a b ((fun x => np_true_divide x d) <$> slice l a b).

(** plot.py 72-75 / 158-161, one iteration: four statements, each of which
    evaluates [np.max(mx[i*3:(i+1)*3])] on the current [mx]. *)
Definition normalize_group (s : series) (i : nat) : result series :=
  d ← np_max (slice (mx s) (i * 3) ((i + 1) * 3));
  let s := {| avg := idiv_slice (avg s) (i * 3) ((i + 1) * 3) d;
              std := std s; mn := mn s; mx := mx s |} in
  d ← np_max (slice (mx s) (i * 3) ((i + 1) * 3));
  let s := {| avg := avg s;
              std := idiv_slice (std s) (i * 3) ((i + 1) * 3) d;
              mn := mn s; mx := mx s |} in
  d ← np_max (slice (mx s) (i * 3) ((i + 1) * 3));
  let s := {| avg := avg s; std := std s;
              mn := idiv_slice (mn s) (i * 3) ((i + 1) * 3) d;
              mx := mx s |} in
  d ← np_max (slice (mx s) (i * 3) ((i + 1) * 3));
  mret {| avg := avg s; std := std s; mn := mn s;
          mx := idiv_slice (mx s) (i * 3) ((i + 1) * 3) d |}.

(** plot.py 71 / 157: [for i, _ in enumerate(metrics)] *)
Definition normalize (p : pass) (s : series) : result series :=
  for_each (seq 0 (length (metrics p))) normalize_group s.

(** An [ax.text(x, y, s)] call. *)
Record text : Type := {
  text_x : R;
  text_y : npfloat;
  text_s : string
}.

Definition offset : npfloat := Fin (5 / 100).

(** plot.py 76-78.  The second call is a conditional expression: its
    condition is evaluated first, then one of its two branches. *)
Definition job_labels (mx : list npfloat) : result (list text) :=
  m0 ← np_max (slice mx 0 2);
  let t0 := {| text_x := 25 / 100; text_y := np_add m0 offset;
               text_s := "CP" |} in
  c ← np_max (slice mx 3 6);
  y1 ← (if negb (np_isnan c)
        then m1 ← np_max (slice mx 3 6); mret (np_add m1 offset)
        else mret offset);
  let t1 := {| text_x := 125 / 100; text_y := y1; text_s := "WT" |} in
  m2 ← np_max (slice mx 6 9);
  let t2 := {| text_x := 225 / 100; text_y := np_add m2 offset;
               text_s := "MS" |} in
  mret [t0; t1; t2].

(** plot.py 162-164 *)
Definition task_labels (mx : list npfloat) : result (list text) :=
  m0 ← np_max (slice mx 0 2);
  let t0 := {| text_x := 25 / 100; text_y := np_add m0 offset;
               text_s := "EX" |} in
  m1 ← np_max (slice mx 3 6);
  let t1 := {| text_x := 125 / 100; text_y := np_add m1 offset;
               text_s := "WT" |} in
  m2 ← np_max (slice mx 6 9);
  let t2 := {| text_x := 225 / 100; text_y := np_add m2 offset;
               text_s := "TA" |} in
  mret [t0; t1; t2].

(** An [ax.bar(pos, heights, width, label=..., yerr=...)] call; [pos] and
    [width] are constants of the script. *)
Record bar : Type := {
  bar_label : string;
  heights : list npfloat;
  yerr : option (list npfloat)
}.

(** What one subplot shows of the data: the labels and the three bar
    series, in drawing order.  Ticks, titles, limits, grid and legend do not
    depend on the data and are left out. *)
Record subplot : Type := {
  texts : list text;
  bars : list bar
}.

(** plot.py 56-81 / 146-167 *)
Definition render_subplot (p : pass)
    (labels : list npfloat → result (list text))
    (res : table) (setup trace : string) : result subplot :=
  s ← collect p res setup trace;
  s ← normalize p s;
  ts ← labels (mx s);
  mret {| texts := ts;
          bars := [ {| bar_label := "MAX"; heights := mx s; yerr := None |};
                    {| bar_label := "AVG"; heights := avg s;
                       yerr := Some (std s) |};
                    {| bar_label := "MIN"; heights := mn s; yerr := None |} ] |}.

(** plot.py 53-87 / 143-173: the subplots ax[0], ax[1], ax[2] of one
    figure. *)
Definition render_figure (p : pass)
    (labels : list npfloat → result (list text))
    (res : table) (setup : string) : result (list subplot) :=
  for_each traces
    (fun fig trace => sp ← render_subplot p labels res setup trace;
                      mret (fig ++ [sp]))
    [].

(** plot.py 52-102 / 142-188: one [plt.savefig] per setup.  The calls made
    before an exception stay made. *)
Fixpoint render_all (p : pass) (labels : list npfloat → result (list text))
    (res : table) (ss : list string)
  : list (string * list subplot) * option exn :=
  match ss with
  | [] => ([], None)
  | setup :: rest =>
      match render_figure p labels res setup with
      | Raise e => ([], Some e)
      | Ok fig =>
          let '(w, e) := render_all p labels res rest in
          ((setup +:+ suffix p, fig) :: w, e)
      end
  end.

Definition run_pass (p : pass) (labels : list npfloat → result (list text))
    (fs : files) : list (string * list subplot) * option exn :=
  match load_results p fs with
  | Raise e => ([], Some e)
  | Ok res => render_all p labels res setups
  end.

Definition job_pass : pass :=
  {| csv_name := "job_metrics.csv";
     columns := ("critical_path", "waiting_time", "makespan");
     keys := ("CP", "WT", "MS");
     metrics := ["CP"; "WT"; "MS"];
     suffix := "_job.pdf" |}.

Definition task_pass : pass :=
  {| csv_name := "task_metrics.csv";
     columns := ("execution", "waiting", "turnaround");
     keys := ("EX", "WT", "TA");
     metrics := ["EX"; "WT"; "TA"];
     suffix := "_task.pdf" |}.

(** The whole script: the job pass, then the task pass.  The result is the
    sequence of [plt.savefig] calls made and the exception that ended the
    run, if any. *)
Definition run (fs : files) : list (string * list subplot) * option exn :=
  match run_pass job_pass job_labels fs with
  | (w, Some e) => (w, Some e)
  | (w, None) =>
      let '(w', e) := run_pass task_pass task_labels fs in (w ++ w', e)
  end.

(** [plt.savefig(name)] writes the file whether or not it exists. *)
Definition savefig (d : gmap string (list subplot))
    (w : string * list subplot) : gmap string (list subplot) :=
  <[w.1 := w.2]> d.

Definition commit (ws : list (string * list subplot))
    (d : gmap string (list subplot)) : gmap string (list subplot) :=
  foldl savefig d ws.

(** ** The standard statistical definitions

    Written from the textbook formulas, over real sums, to be compared with
    what [summary] computes. *)

Definition Rsum (l : list R) : R := foldr Rplus 0%R l.

Definition arithmetic_mean (l : list Z) : R :=
  (Rsum (IZR <$> l) / INR (length l))%R.

Definition population_std (l : list Z) : R :=
  sqrt (Rsum ((fun z => (IZR z - arithmetic_mean l) ^ 2)%R <$> l)
        / INR (length l)).

Definition is_minimum (m : Z) (l : list Z) : Prop :=
  m ∈ l ∧ ∀ x, x ∈ l → (m ≤ x)%Z.

Definition is_maximum (m : Z) (l : list Z) : Prop :=
  m ∈ l ∧ ∀ x, x ∈ l → (x ≤ m)%Z.

(** ** Vocabulary of the properties *)

Definition passes : list pass := [job_pass; task_pass].

(** An optional element divided by [d]. *)
Definition scaled (d : npfloat) (o : option npfloat) : option npfloat :=
  (fun x => np_true_divide x d) <$> o.

(** [s] holds, position by position, the summaries of the nine non-empty
    columns [cols] (three metrics times three schedulers), as [collect]
    composes them from a loaded table. *)
Definition summarises (s : series) (cols : list (list Z)) : Prop :=
  length (avg s) = 9 ∧ length (std s) = 9
  ∧ length (mn s) = 9 ∧ length (mx s) = 9
  ∧ ∀ k, k < 9 →
      ∃ col a d lo hi,
        cols !! k = Some col ∧ col ≠ []
        ∧ summary col = Ok [a; d; lo; hi]
        ∧ avg s !! k = Some a ∧ std s !! k = Some d
        ∧ mn s !! k = Some lo ∧ mx s !! k = Some hi.

(** The float64 quotient of a finite [x] by zero. *)
Definition by_zero (x : R) : npfloat :=
  if Rlt_dec 0 x then PInf else if Rlt_dec x 0 then NInf else NaN.

(** The tallest bar of cluster [i]: the maximum over its three normalised
    max-values. *)
Definition cluster_top (mx : list npfloat) (i : nat) : result npfloat :=
  np_max (slice mx (i * 3) ((i + 1) * 3)).

(** The slice a label's offset is computed from (plot.py 76-78, 162-164). *)
Definition label_slice (mx : list npfloat) (j : nat) : list npfloat :=
  match j with
  | 0 => slice mx 0 2
  | 1 => slice mx 3 6
  | _ => slice mx 6 9
  end.

(** Label [j] of [labels] substitutes the fallback offset: whenever the
    maximum it computes is nan, the label sits at 0.05. *)
Definition substitutes (labels : list npfloat → result (list text))
    (j : nat) : Prop :=
  ∀ mx, length mx = 9 → np_max (label_slice mx j) = Ok NaN →
    ∃ ts t, labels mx = Ok ts ∧ ts !! j = Some t ∧ text_y t = offset.

(** Label [j] of [labels] performs no substitution: whenever the maximum
    it computes is nan, so is the label's position. *)
Definition propagates (labels : list npfloat → result (list text))
    (j : nat) : Prop :=
  ∀ mx, length mx = 9 → np_max (label_slice mx j) = Ok NaN →
    ∃ ts t, labels mx = Ok ts ∧ ts !! j = Some t ∧ text_y t = NaN.

(** The two passes with their label placement, as [run] calls them. *)
Definition programs : list (pass * (list npfloat → result (list text))) :=
  [(job_pass, job_labels); (task_pass, task_labels)].

(** A row whose three columns of pass [p] hold integer text. *)
Definition int_row (p : pass) (row : gmap string cell) : Prop :=
  ∃ x y z,
    row !! (columns p).1.1 = Some (IntText x)
    ∧ row !! (columns p).1.2 = Some (IntText y)
    ∧ row !! (columns p).2 = Some (IntText z).

(** Every file of pass [p] over the grid exists, has at least one row, and
    has integer text in the three columns of every row. *)
Definition well_formed (p : pass) (fs : files) : Prop :=
  ∀ setup trace sched,
    setup ∈ setups → trace ∈ traces → sched ∈ schedulers →
    ∃ rows, fs (csv_path p setup trace sched) = Some rows
      ∧ rows ≠ [] ∧ ∀ row, row ∈ rows → int_row p row.

(** The files of pass [p] over the grid are the same in [fs1] and [fs2]. *)
Definition agree (p : pass) (fs1 fs2 : files) : Prop :=
  ∀ setup trace sched,
    setup ∈ setups → trace ∈ traces → sched ∈ schedulers →
    fs1 (csv_path p setup trace sched) = fs2 (csv_path p setup trace sched).

Definition outputs : list string :=
  ["setup_job.pdf"; "setup-heterogeneous_job.pdf"; "setup-distributed_job.pdf";
   "setup_task.pdf"; "setup-heterogeneous_task.pdf";
   "setup-distributed_task.pdf"].

(** ** Sample inputs *)

(** Four raw lists with maxima 3, 5, 8 in the first group. *)
Definition sample_series : series :=
  {| avg := [Fin 2; Fin 3; Fin 4; Fin 1; Fin 1; Fin 1; Fin 0; Fin 0; Fin 0];
     std := [Fin 1; Fin 1; Fin 2; Fin 0; Fin 0; Fin 0; Fin 0; Fin 0; Fin 0];
     mn := [Fin 1; Fin 1; Fin 2; Fin 1; Fin 1; Fin 1; Fin 0; Fin 0; Fin 0];
     mx := [Fin 3; Fin 5; Fin 8; Fin 1; Fin 1; Fin 1; Fin 0; Fin 0; Fin 0] |}.

(** Nine columns and their summaries: the first group has a positive
    maximum, the third holds zeros only. *)
Definition sample_cols : list (list Z) :=
  [[1; 3]; [2; 2]; [4]; [1]; [1]; [1]; [0]; [0]; [0]]%Z.

Definition sample_stats : series :=
  {| avg := np_mean <$> sample_cols;
     std := np_std <$> sample_cols;
     mn := of_int <$> [1; 2; 4; 1; 1; 1; 0; 0; 0]%Z;
     mx := of_int <$> [3; 2; 4; 1; 1; 1; 0; 0; 0]%Z |}.

(** Every column holds the rows -2 and 0: mean -1, deviation 1, minimum -2,
    maximum 0. *)
Definition negative_cols : list (list Z) := replicate 9 [-2; 0]%Z.

Definition negative_stats : series :=
  {| avg := replicate 9 (Fin (-1));
     std := replicate 9 (Fin 1);
     mn := replicate 9 (Fin (-2));
     mx := replicate 9 (Fin 0) |}.

(** Every file has a header and no rows. *)
Definition header_only : files := fun _ => Some [].

(** A row with the six columns of both passes. *)
Definition demo_row (v : Z) : gmap string cell :=
  <["critical_path" := IntText v]> (<["waiting_time" := IntText v]>
  (<["makespan" := IntText v]> (<["execution" := IntText v]>
  (<["waiting" := IntText v]> (<["turnaround" := IntText v]> ∅))))).

(** Every file holds the same two rows. *)
Definition demo_files : files := fun _ => Some [demo_row 1; demo_row 3].

(** As [demo_files], but for one job file. *)
Definition other_files : files := fun path =>
  if String.eqb path "./results/shell_setup_FCP/job_metrics.csv"
  then Some [demo_row 7]
  else Some [demo_row 1; demo_row 3].

(** One-row files: the third scheduler has the largest first metric, and
    the second metric is zero throughout. *)
Definition skewed_cols : list (list Z) :=
  [[1]; [2]; [4]; [0]; [0]; [0]; [1]; [1]; [1]]%Z.

Definition skewed_stats : series :=
  {| avg := of_int <$> [1; 2; 4; 0; 0; 0; 1; 1; 1]%Z;
     std := replicate 9 (Fin 0);
     mn := of_int <$> [1; 2; 4; 0; 0; 0; 1; 1; 1]%Z;
     mx := of_int <$> [1; 2; 4; 0; 0; 0; 1; 1; 1]%Z |}.

(** [skewed_stats] after the normalisation loop. *)
Definition skewed_normalized : series :=
  {| avg := [Fin (1 / 4); Fin (2 / 4); Fin (4 / 4); NaN; NaN; NaN;
             Fin (1 / 1); Fin (1 / 1); Fin (1 / 1)];
     std := [Fin (0 / 4); Fin (0 / 4); Fin (0 / 4); NaN; NaN; NaN;
             Fin (0 / 1); Fin (0 / 1); Fin (0 / 1)];
     mn := [Fin (1 / 4); Fin (2 / 4); Fin (4 / 4); NaN; NaN; NaN;
            Fin (1 / 1); Fin (1 / 1); Fin (1 / 1)];
     mx := [Fin (1 / 4); Fin (2 / 4); Fin (4 / 4); NaN; NaN; NaN;
            Fin (1 / 1); Fin (1 / 1); Fin (1 / 1)] |}.

(** ** Tick labels and bar positions (plot.py 45-50 / 135-140) *)

Definition pos : list R :=
  [0; 25 / 100; 50 / 100; 1; 125 / 100; 15 / 10; 2; 225 / 100; 25 / 10]%R.

(** [for met in metrics: for sched in schedulers: xticks.append(sched)] *)
Definition xticks (p : pass) : list string :=
  foldl (fun acc _ => foldl (fun acc sched => acc ++ [sched]) acc schedulers)
    [] (metrics p).

(** ** Further sample inputs *)



(** As [demo_files], with one job file missing. *)
Definition one_missing_files : files := fun path =>
  if String.eqb path "./results/askalon_setup_Lottery/job_metrics.csv"
  then None
  else Some [demo_row 1; demo_row 3].

(** As [demo_files], without a file that is none of the 54. *)
Definition no_notes_files : files := fun path =>
  if String.eqb path "./results/notes.csv"
  then None
  else Some [demo_row 1; demo_row 3].





(** Every column holds the rows 1 and 3: mean 2, deviation 1, minimum 1,
    maximum 3. *)
Definition positive_cols : list (list Z) := replicate 9 [1; 3]%Z.

Definition positive_stats : series :=
  {| avg := replicate 9 (Fin 2);
     std := replicate 9 (Fin 1);
     mn := replicate 9 (Fin 1);
     mx := replicate 9 (Fin 3) |}.

(** ** Facts about the float64 model *)

(** Decides the comparisons of concrete reals met when a float64 operation
    is evaluated. *)
Ltac rdec :=
  repeat match goal with
  | |- context [Rle_dec ?a ?b] => destruct (Rle_dec a b); try (exfalso; lra)
  | |- context [Rlt_dec ?a ?b] => destruct (Rlt_dec a b); try (exfalso; lra)
  | |- context [Req_dec_T ?a ?b] =>
      destruct (Req_dec_T a b); try (exfalso; lra)
  end.

Example divide_zero_by_zero : np_true_divide (Fin 0) (Fin 0) = NaN.
Proof. unfold np_true_divide. rdec. reflexivity. Qed.

Example divide_negative_by_zero : np_true_divide (Fin (-2)) (Fin 0) = NInf.
Proof. unfold np_true_divide. rdec. reflexivity. Qed.

Example divide_three_by_four : np_true_divide (Fin 3) (Fin 4) = Fin (3 / 4).
Proof. unfold np_true_divide. rdec. reflexivity. Qed.

Example max_propagates_nan : np_max [Fin 1; NaN; PInf] = Ok NaN.
Proof. reflexivity. Qed.

Example max_of_nothing : np_max [] = Raise ValueError_reduction.
Proof. reflexivity. Qed.

Example slice_clamps : slice [1; 2; 3] 1 7 = [2; 3].
Proof. reflexivity. Qed.

Example first_label_slice : slice [1; 2; 3; 4; 5; 6; 7; 8; 9] 0 2 = [1; 2].
Proof. reflexivity. Qed.

Example set_slice_inside : set_slice [1; 2; 3; 4] 1 3 [8; 9] = [1; 8; 9; 4].
Proof. reflexivity. Qed.

Lemma div_lower (a b n : R) : (0 < n → n * a <= b → a <= b / n)%R.
Proof.
  intros Hn H. apply Rmult_le_reg_r with n; [exact Hn|].
  unfold Rdiv. rewrite Rmult_assoc, Rinv_l by lra. lra.
Qed.

Lemma div_upper (a b n : R) : (0 < n → b <= n * a → b / n <= a)%R.
Proof.
  intros Hn H. apply Rmult_le_reg_r with n; [exact Hn|].
  unfold Rdiv. rewrite Rmult_assoc, Rinv_l by lra. lra.
Qed.

Lemma np_true_divide_fin (x y : R) :
  y ≠ 0%R → np_true_divide (Fin x) (Fin y) = Fin (x / y).
Proof.
  intros Hy. unfold np_true_divide.
  destruct (Req_dec_T y 0) as [E|_]; [contradiction|reflexivity].
Qed.

Lemma np_true_divide_zero (x : R) :
  np_true_divide (Fin x) (Fin 0) =
    if Rlt_dec 0 x then PInf else if Rlt_dec x 0 then NInf else NaN.
Proof.
  unfold np_true_divide.
  destruct (Req_dec_T 0 0) as [_|N]; [reflexivity|contradiction].
Qed.

Lemma np_maximum_int (a b : Z) :
  np_maximum (of_int a) (of_int b) = of_int (Z.max a b).
Proof.
  unfold of_int; simpl. f_equal.
  destruct (Z.max_spec a b) as [[H ->]|[H ->]].
  - apply Rmax_right, IZR_le. lia.
  - apply Rmax_left, IZR_le. lia.
Qed.

Lemma np_minimum_int (a b : Z) :
  np_minimum (of_int a) (of_int b) = of_int (Z.min a b).
Proof.
  unfold of_int; simpl. f_equal.
  destruct (Z.min_spec a b) as [[H ->]|[H ->]].
  - apply Rmin_left, IZR_le. lia.
  - apply Rmin_right, IZR_le. lia.
Qed.

Lemma foldl_maximum_int (xs : list Z) (a : Z) :
  foldl np_maximum (of_int a) (of_int <$> xs) = of_int (foldl Z.max a xs).
Proof.
  revert a. induction xs as [|x xs IH]; intros a; [reflexivity|].
  cbn [fmap list_fmap foldl]. rewrite np_maximum_int. apply IH.
Qed.

Lemma foldl_minimum_int (xs : list Z) (a : Z) :
  foldl np_minimum (of_int a) (of_int <$> xs) = of_int (foldl Z.min a xs).
Proof.
  revert a. induction xs as [|x xs IH]; intros a; [reflexivity|].
  cbn [fmap list_fmap foldl]. rewrite np_minimum_int. apply IH.
Qed.

Lemma foldl_Zmax_is_maximum (xs : list Z) (a : Z) :
  is_maximum (foldl Z.max a xs) (a :: xs).
Proof.
  revert a. induction xs as [|x xs IH]; intros a.
  - split; [left|]. intros y Hy. apply list_elem_of_singleton in Hy. simpl. lia.
  - cbn [foldl]. destruct (IH (Z.max a x)) as [Hin Hub]. split.
    + apply elem_of_cons in Hin as [E|Hin].
      * rewrite E. destruct (Z.max_spec a x) as [[_ ->]|[_ ->]];
          [right; left | left].
      * right; right; exact Hin.
    + intros y Hy. pose proof (Hub (Z.max a x) ltac:(left)) as Hm.
      apply elem_of_cons in Hy as [Hy|Hy]; [lia|].
      apply elem_of_cons in Hy as [Hy|Hy]; [lia|].
      apply Hub. right; exact Hy.
Qed.

Lemma foldl_Zmin_is_minimum (xs : list Z) (a : Z) :
  is_minimum (foldl Z.min a xs) (a :: xs).
Proof.
  revert a. induction xs as [|x xs IH]; intros a.
  - split; [left|]. intros y Hy. apply list_elem_of_singleton in Hy. simpl. lia.
  - cbn [foldl]. destruct (IH (Z.min a x)) as [Hin Hlb]. split.
    + apply elem_of_cons in Hin as [E|Hin].
      * rewrite E. destruct (Z.min_spec a x) as [[_ ->]|[_ ->]];
          [left | right; left].
      * right; right; exact Hin.
    + intros y Hy. pose proof (Hlb (Z.min a x) ltac:(left)) as Hm.
      apply elem_of_cons in Hy as [Hy|Hy]; [lia|].
      apply elem_of_cons in Hy as [Hy|Hy]; [lia|].
      apply Hlb. right; exact Hy.
Qed.

Lemma np_max_int (x : Z) (xs : list Z) :
  np_max (of_int <$> x :: xs) = Ok (of_int (foldl Z.max x xs)).
Proof. cbn [fmap list_fmap np_max]. f_equal. apply foldl_maximum_int. Qed.

Lemma np_min_int (x : Z) (xs : list Z) :
  np_min (of_int <$> x :: xs) = Ok (of_int (foldl Z.min x xs)).
Proof. cbn [fmap list_fmap np_min]. f_equal. apply foldl_minimum_int. Qed.

(** ** Facts about the aggregation *)

Lemma length_pos_INR {A} (x : A) (xs : list A) : (0 < INR (length (x :: xs)))%R.
Proof. apply lt_0_INR. simpl. lia. Qed.

Lemma np_mean_cons (x : Z) (xs : list Z) :
  np_mean (x :: xs)
  = Fin (IZR (np_sum (x :: xs)) / INR (length (x :: xs))).
Proof.
  unfold np_mean, of_int. apply np_true_divide_fin.
  pose proof (length_pos_INR x xs). lra.
Qed.

Lemma sq_dev_nonneg (mu : R) (l : list Z) : (0 <= sq_dev mu l)%R.
Proof.
  induction l as [|z l IH]; simpl; [lra|].
  pose proof (Rle_0_sqr (IZR z - mu)) as H. unfold Rsqr in H. lra.
Qed.

Lemma np_std_cons (x : Z) (xs : list Z) :
  np_std (x :: xs)
  = Fin (sqrt (sq_dev (IZR (np_sum (x :: xs)) / INR (length (x :: xs)))
                 (x :: xs)
               / INR (length (x :: xs)))).
Proof.
  unfold np_std, np_var. rewrite np_mean_cons.
  replace (length (x :: xs) - 0)%nat with (length (x :: xs)) by lia.
  pose proof (length_pos_INR x xs) as Hn.
  rewrite np_true_divide_fin by lra.
  unfold np_sqrt.
  destruct (Rlt_dec _ 0) as [Hneg|_]; [|reflexivity].
  exfalso.
  pose proof (sq_dev_nonneg (IZR (np_sum (x :: xs)) / INR (length (x :: xs)))
                (x :: xs)) as Hd.
  apply (Rlt_not_le _ _ Hneg). apply div_lower; [exact Hn|]. lra.
Qed.

Lemma summary_cons (x : Z) (xs : list Z) :
  summary (x :: xs)
  = Ok [ Fin (IZR (np_sum (x :: xs)) / INR (length (x :: xs)));
         Fin (sqrt (sq_dev (IZR (np_sum (x :: xs)) / INR (length (x :: xs)))
                      (x :: xs)
                    / INR (length (x :: xs))));
         of_int (foldl Z.min x xs);
         of_int (foldl Z.max x xs) ].
Proof.
  unfold summary. rewrite np_min_int, np_max_int, np_mean_cons, np_std_cons.
  reflexivity.
Qed.

(** The divisor matters: on the rows 1 and 3 numpy's default (ddof = 0)
    gives variance 1, the sample variance (ddof = 1) would give 2. *)
Example variance_divisor :
  np_var 0 [1; 3]%Z = Fin 1 ∧ np_var 1 [1; 3]%Z = Fin 2.
Proof.
  unfold np_var. rewrite np_mean_cons. cbn [length Nat.sub].
  rewrite !np_true_divide_fin by (simpl; lra).
  split; f_equal; simpl; rewrite !plus_IZR; lra.
Qed.

Lemma IZR_np_sum (l : list Z) : IZR (np_sum l) = Rsum (IZR <$> l).
Proof.
  induction l as [|z l IH]; [reflexivity|].
  cbn [np_sum foldr fmap list_fmap Rsum]. rewrite plus_IZR.
  fold (np_sum l). rewrite IH. reflexivity.
Qed.

Lemma sq_dev_Rsum (mu : R) (l : list Z) :
  sq_dev mu l = Rsum ((fun z => (IZR z - mu) ^ 2)%R <$> l).
Proof.
  induction l as [|z l IH]; [reflexivity|].
  cbn [sq_dev foldr fmap list_fmap Rsum]. fold (sq_dev mu l).
  rewrite IH. unfold Rsum. simpl. ring.
Qed.

Lemma np_sum_bounds (lo hi : Z) (l : list Z) :
  (∀ x, x ∈ l → (lo ≤ x ≤ hi)%Z) →
  (Z.of_nat (length l) * lo ≤ np_sum l ≤ Z.of_nat (length l) * hi)%Z.
Proof.
  induction l as [|z l IH]; intros H; [simpl; lia|].
  cbn [np_sum foldr length]. fold (np_sum l).
  pose proof (H z ltac:(left)).
  assert (∀ x, x ∈ l → (lo ≤ x ≤ hi)%Z) as Hl by (intros y Hy; apply H; right; exact Hy).
  specialize (IH Hl). lia.
Qed.

Lemma mean_between (x : Z) (xs : list Z) :
  (IZR (foldl Z.min x xs)
   <= IZR (np_sum (x :: xs)) / INR (length (x :: xs))
   <= IZR (foldl Z.max x xs))%R.
Proof.
  destruct (foldl_Zmin_is_minimum xs x) as [_ Hlo].
  destruct (foldl_Zmax_is_maximum xs x) as [_ Hhi].
  destruct (np_sum_bounds (foldl Z.min x xs) (foldl Z.max x xs) (x :: xs))
    as [H1 H2].
  { intros y Hy. split; [apply Hlo | apply Hhi]; exact Hy. }
  pose proof (length_pos_INR x xs) as Hn.
  apply IZR_le in H1, H2. rewrite mult_IZR, <- INR_IZR_INZ in H1, H2.
  split.
  - apply div_lower; [exact Hn|]. lra.
  - apply div_upper; [exact Hn|]. lra.
Qed.

(** C4.  On a non-empty integer sequence the aggregator returns, in this
    order, the arithmetic mean, the population standard deviation (the sum
    of squared deviations over n, not n-1), the minimum and the maximum of
    the sequence. *)
Theorem summary_standard (l : list Z) :
  l ≠ [] →
  ∃ lo hi : Z,
    summary l = Ok [ Fin (arithmetic_mean l); Fin (population_std l);
                     of_int lo; of_int hi ]
    ∧ is_minimum lo l ∧ is_maximum hi l.
Proof.
  destruct l as [|x xs]; [congruence|]. intros _.
  exists (foldl Z.min x xs), (foldl Z.max x xs).
  split; [|split].
  - rewrite summary_cons. unfold population_std, arithmetic_mean.
    rewrite <- IZR_np_sum, <- sq_dev_Rsum. reflexivity.
  - apply foldl_Zmin_is_minimum.
  - apply foldl_Zmax_is_maximum.
Qed.

Lemma summary_standard_witness :
  ∃ lo hi : Z,
    summary [3; 1; 2]%Z
    = Ok [ Fin (arithmetic_mean [3; 1; 2]%Z);
           Fin (population_std [3; 1; 2]%Z); of_int lo; of_int hi ]
    ∧ is_minimum lo [3; 1; 2]%Z ∧ is_maximum hi [3; 1; 2]%Z.
Proof. apply (summary_standard [3; 1; 2]%Z). discriminate. Defined.



(** ** Facts about the normalisation loop *)

Lemma length_nine {A} (l : list A) :
  length l = 9 →
  ∃ x0 x1 x2 x3 x4 x5 x6 x7 x8, l = [x0; x1; x2; x3; x4; x5; x6; x7; x8].
Proof.
  intros H.
  do 9 (destruct l as [|? l]; [discriminate H|]).
  destruct l; [|discriminate H].
  by eexists _, _, _, _, _, _, _, _, _.
Qed.

Lemma normalize_group_run (s : series) (i : nat) (d : npfloat) :
  np_max (slice (mx s) (i * 3) ((i + 1) * 3)) = Ok d →
  normalize_group s i
  = Ok {| avg := idiv_slice (avg s) (i * 3) ((i + 1) * 3) d;
          std := idiv_slice (std s) (i * 3) ((i + 1) * 3) d;
          mn := idiv_slice (mn s) (i * 3) ((i + 1) * 3) d;
          mx := idiv_slice (mx s) (i * 3) ((i + 1) * 3) d |}.
Proof.
  intros H. unfold normalize_group. cbv zeta. cbn [avg std mn mx].
  rewrite H. reflexivity.
Qed.

Lemma metrics_three (p : pass) :
  p ∈ passes → length (metrics p) = 3.
Proof.
  intros Hp. apply elem_of_cons in Hp as [->|Hp]; [reflexivity|].
  apply list_elem_of_singleton in Hp as ->. reflexivity.
Qed.

Ltac run_group i :=
  erewrite (normalize_group_run _ i) by reflexivity;
  cbn [mbind result_bind avg std mn mx idiv_slice set_slice slice take drop
       fmap list_fmap app Nat.mul Nat.add Nat.sub].

(** The loop on nine-element lists, written out: each group of three is
    divided once, by the maximum of its own raw max-values.  The divisor
    read by the four statements of an iteration is the same, since [mx] is
    overwritten last, and the groups do not overlap. *)
Lemma normalize_nine (p : pass)
    (a0 a1 a2 a3 a4 a5 a6 a7 a8 s0 s1 s2 s3 s4 s5 s6 s7 s8 : npfloat)
    (l0 l1 l2 l3 l4 l5 l6 l7 l8 h0 h1 h2 h3 h4 h5 h6 h7 h8 : npfloat) :
  p ∈ passes →
  let g0 := foldl np_maximum h0 [h1; h2] in
  let g1 := foldl np_maximum h3 [h4; h5] in
  let g2 := foldl np_maximum h6 [h7; h8] in
  let q := np_true_divide in
  normalize p {| avg := [a0; a1; a2; a3; a4; a5; a6; a7; a8];
                 std := [s0; s1; s2; s3; s4; s5; s6; s7; s8];
                 mn := [l0; l1; l2; l3; l4; l5; l6; l7; l8];
                 mx := [h0; h1; h2; h3; h4; h5; h6; h7; h8] |}
  = Ok {| avg := [q a0 g0; q a1 g0; q a2 g0; q a3 g1; q a4 g1; q a5 g1;
                  q a6 g2; q a7 g2; q a8 g2];
          std := [q s0 g0; q s1 g0; q s2 g0; q s3 g1; q s4 g1; q s5 g1;
                  q s6 g2; q s7 g2; q s8 g2];
          mn := [q l0 g0; q l1 g0; q l2 g0; q l3 g1; q l4 g1; q l5 g1;
                 q l6 g2; q l7 g2; q l8 g2];
          mx := [q h0 g0; q h1 g0; q h2 g0; q h3 g1; q h4 g1; q h5 g1;
                 q h6 g2; q h7 g2; q h8 g2] |}.
Proof.
  intros Hp. unfold normalize. rewrite (metrics_three p Hp).
  cbn [seq for_each]. run_group 0. run_group 1. run_group 2.
  reflexivity.
Qed.

Lemma normalize_lookup (p : pass) (s : series) (i : nat) (d : npfloat) :
  p ∈ passes →
  length (avg s) = 9 → length (std s) = 9 →
  length (mn s) = 9 → length (mx s) = 9 →
  i < 3 →
  np_max (slice (mx s) (i * 3) ((i + 1) * 3)) = Ok d →
  ∃ s', normalize p s = Ok s'
    ∧ length (avg s') = 9 ∧ length (std s') = 9
    ∧ length (mn s') = 9 ∧ length (mx s') = 9
    ∧ ∀ k, i * 3 ≤ k < (i + 1) * 3 →
        avg s' !! k = scaled d (avg s !! k)
        ∧ std s' !! k = scaled d (std s !! k)
        ∧ mn s' !! k = scaled d (mn s !! k)
        ∧ mx s' !! k = scaled d (mx s !! k).
Proof.
  intros Hp Ha Hs Hn Hx Hi Hd. destruct s as [a sd lo hi]. simpl in *.
  destruct (length_nine a Ha) as (a0&a1&a2&a3&a4&a5&a6&a7&a8&->).
  destruct (length_nine sd Hs) as (s0&s1&s2&s3&s4&s5&s6&s7&s8&->).
  destruct (length_nine lo Hn) as (l0&l1&l2&l3&l4&l5&l6&l7&l8&->).
  destruct (length_nine hi Hx) as (h0&h1&h2&h3&h4&h5&h6&h7&h8&->).
  rewrite (normalize_nine p) by exact Hp.
  eexists. split; [reflexivity|]. cbn [avg std mn mx].
  do 4 (split; [reflexivity|]).
  intros k Hk.
  destruct i as [|[|[|i]]]; [| | |lia];
    cbn [slice take drop Nat.mul Nat.add Nat.sub np_max] in Hd;
    injection Hd as <-;
    do 9 (destruct k as [|k];
          [first [exfalso; lia | repeat split; reflexivity]|]);
    exfalso; lia.
Qed.

Lemma by_zero_0 : by_zero 0 = NaN.
Proof. unfold by_zero. rdec. reflexivity. Qed.

Lemma np_true_divide_by_zero (x : R) :
  np_true_divide (Fin x) (Fin 0) = by_zero x.
Proof. apply np_true_divide_zero. Qed.

Lemma zero_slice_max (l : list npfloat) (i : nat) :
  length l = 9 → i < 3 →
  (∀ k, i * 3 ≤ k < (i + 1) * 3 → l !! k = Some (Fin 0)) →
  np_max (slice l (i * 3) ((i + 1) * 3)) = Ok (Fin 0).
Proof.
  intros Hl Hi H.
  destruct (length_nine l Hl) as (h0&h1&h2&h3&h4&h5&h6&h7&h8&->).
  assert (Rmax (Rmax 0 0) 0 = 0%R) as HR by (unfold Rmax; rdec; reflexivity).
  destruct i as [|[|[|i]]]; [| | |lia].
  - pose proof (H 0 ltac:(lia)) as E0. pose proof (H 1 ltac:(lia)) as E1.
    pose proof (H 2 ltac:(lia)) as E2. cbn in E0, E1, E2.
    injection E0 as ->. injection E1 as ->. injection E2 as ->.
    cbn. rewrite HR. reflexivity.
  - pose proof (H 3 ltac:(lia)) as E0. pose proof (H 4 ltac:(lia)) as E1.
    pose proof (H 5 ltac:(lia)) as E2. cbn in E0, E1, E2.
    injection E0 as ->. injection E1 as ->. injection E2 as ->.
    cbn. rewrite HR. reflexivity.
  - pose proof (H 6 ltac:(lia)) as E0. pose proof (H 7 ltac:(lia)) as E1.
    pose proof (H 8 ltac:(lia)) as E2. cbn in E0, E1, E2.
    injection E0 as ->. injection E1 as ->. injection E2 as ->.
    cbn. rewrite HR. reflexivity.
Qed.

Lemma Ok_four_inj {A} (a b c d a' b' c' d' : A) :
  Ok [a; b; c; d] = Ok [a'; b'; c'; d'] →
  a = a' ∧ b = b' ∧ c = c' ∧ d = d'.
Proof. intros H. by injection H. Qed.

Lemma summary_finite (col : list Z) (a d lo hi : npfloat) :
  col ≠ [] → summary col = Ok [a; d; lo; hi] →
  ∃ ra rd rlo rhi : R,
    a = Fin ra ∧ d = Fin rd ∧ lo = Fin rlo ∧ hi = Fin rhi
    ∧ (rlo <= ra <= rhi)%R ∧ (0 <= rd)%R.
Proof.
  destruct col as [|x xs]; [congruence|]. intros _ H.
  rewrite summary_cons in H.
  apply Ok_four_inj in H as (<- & <- & <- & <-).
  eexists _, _, _, _. do 4 (split; [reflexivity|]).
  split; [apply mean_between | apply sqrt_pos].
Qed.

Lemma np_sum_zero (l : list Z) : (∀ z, z ∈ l → z = 0%Z) → np_sum l = 0%Z.
Proof.
  induction l as [|z l IH]; intros H; [reflexivity|].
  cbn [np_sum foldr]. fold (np_sum l).
  rewrite (H z ltac:(left)), IH; [reflexivity|].
  intros y Hy. apply H. right; exact Hy.
Qed.

Lemma sq_dev_zero (l : list Z) :
  (∀ z, z ∈ l → z = 0%Z) → sq_dev 0 l = 0%R.
Proof.
  induction l as [|z l IH]; intros H; [reflexivity|].
  cbn [sq_dev foldr]. fold (sq_dev 0 l).
  rewrite (H z ltac:(left)), IH; [lra|].
  intros y Hy. apply H. right; exact Hy.
Qed.

(** A non-empty column of non-negative values whose maximum is zero has
    mean, deviation and minimum zero as well. *)
Lemma zero_column (col : list Z) (a d lo : npfloat) :
  col ≠ [] → (∀ z, z ∈ col → (0 ≤ z)%Z) →
  summary col = Ok [a; d; lo; Fin 0] →
  a = Fin 0 ∧ d = Fin 0 ∧ lo = Fin 0.
Proof.
  destruct col as [|x xs]; [congruence|]. intros _ Hpos H.
  rewrite summary_cons in H.
  apply Ok_four_inj in H as (<- & <- & <- & Hmax).
  injection Hmax as Hmax. apply eq_IZR in Hmax.
  destruct (foldl_Zmax_is_maximum xs x) as [_ Hub].
  destruct (foldl_Zmin_is_minimum xs x) as [Hin _].
  assert (∀ z, z ∈ x :: xs → z = 0%Z) as Hz.
  { intros z Hz. pose proof (Hub z Hz). pose proof (Hpos z Hz). lia. }
  rewrite (np_sum_zero _ Hz).
  pose proof (length_pos_INR x xs) as Hn.
  replace (0 / INR (length (x :: xs)))%R with 0%R by (field; lra).
  rewrite (sq_dev_zero _ Hz).
  replace (0 / INR (length (x :: xs)))%R with 0%R by (field; lra).
  rewrite sqrt_0, (Hz _ Hin). by repeat split.
Qed.

Lemma scaled_fin (x m : R) :
  m ≠ 0%R → scaled (Fin m) (Some (Fin x)) = Some (Fin (x / m)).
Proof.
  intros Hm. unfold scaled.
  change (Some (np_true_divide (Fin x) (Fin m)) = Some (Fin (x / m))).
  by rewrite np_true_divide_fin.
Qed.

Lemma div_le_pos (x y m : R) : (0 < m → x <= y → x / m <= y / m)%R.
Proof.
  intros Hm H. unfold Rdiv. apply Rmult_le_compat_r; [|exact H].
  left. apply Rinv_0_lt_compat. exact Hm.
Qed.

(** C1.  In either pass, for a group of three whose raw maximum m is
    strictly positive, the loop replaces every (finite) element x of the
    group in avg, std, min and max by x/m, and an element of max equal to m
    by exactly 1. *)
Theorem normalize_scales (p : pass) (s : series) (i : nat) (m : R) :
  p ∈ passes →
  length (avg s) = 9 → length (std s) = 9 →
  length (mn s) = 9 → length (mx s) = 9 →
  i < 3 →
  np_max (slice (mx s) (i * 3) ((i + 1) * 3)) = Ok (Fin m) →
  (0 < m)%R →
  ∃ s', normalize p s = Ok s'
    ∧ ∀ k, i * 3 ≤ k < (i + 1) * 3 →
        (∀ x, avg s !! k = Some (Fin x) → avg s' !! k = Some (Fin (x / m)))
        ∧ (∀ x, std s !! k = Some (Fin x) → std s' !! k = Some (Fin (x / m)))
        ∧ (∀ x, mn s !! k = Some (Fin x) → mn s' !! k = Some (Fin (x / m)))
        ∧ (∀ x, mx s !! k = Some (Fin x) → mx s' !! k = Some (Fin (x / m)))
        ∧ (mx s !! k = Some (Fin m) → mx s' !! k = Some (Fin 1)).
Proof.
  intros Hp Ha Hs Hn Hx Hi Hd Hm.
  destruct (normalize_lookup p s i (Fin m) Hp Ha Hs Hn Hx Hi Hd)
    as (s' & Hrun & _ & _ & _ & _ & Hk).
  exists s'. split; [exact Hrun|]. intros k Hin.
  destruct (Hk k Hin) as (Ea & Es & En & Ex).
  assert (m ≠ 0%R) as Hm0 by lra.
  repeat split.
  - intros x E. rewrite Ea, E. by apply scaled_fin.
  - intros x E. rewrite Es, E. by apply scaled_fin.
  - intros x E. rewrite En, E. by apply scaled_fin.
  - intros x E. rewrite Ex, E. by apply scaled_fin.
  - intros E. rewrite Ex, E, scaled_fin by exact Hm0.
    do 2 f_equal. field. exact Hm0.
Qed.

Lemma sample_top : np_max (slice (mx sample_series) (0 * 3) ((0 + 1) * 3)) = Ok (Fin 8).
Proof. cbn. unfold Rmax. rdec. reflexivity. Qed.

Lemma normalize_scales_witness :
  ∃ s', normalize job_pass sample_series = Ok s'
    ∧ ∀ k, 0 * 3 ≤ k < (0 + 1) * 3 →
        (∀ x, avg sample_series !! k = Some (Fin x) →
              avg s' !! k = Some (Fin (x / 8)))
        ∧ (∀ x, std sample_series !! k = Some (Fin x) →
                std s' !! k = Some (Fin (x / 8)))
        ∧ (∀ x, mn sample_series !! k = Some (Fin x) →
                mn s' !! k = Some (Fin (x / 8)))
        ∧ (∀ x, mx sample_series !! k = Some (Fin x) →
                mx s' !! k = Some (Fin (x / 8)))
        ∧ (mx sample_series !! k = Some (Fin 8) → mx s' !! k = Some (Fin 1)).
Proof.
  apply (normalize_scales job_pass sample_series 0 8);
    [left | reflexivity | reflexivity | reflexivity | reflexivity | lia
    | exact sample_top | lra].
Defined.

Lemma scaled_zero (x : R) : scaled (Fin 0) (Some (Fin x)) = Some (by_zero x).
Proof.
  unfold scaled.
  change (Some (np_true_divide (Fin x) (Fin 0)) = Some (by_zero x)).
  by rewrite np_true_divide_by_zero.
Qed.


Lemma sample_summarises : summarises sample_stats sample_cols.
Proof.
  do 4 (split; [reflexivity|]). intros k Hk.
  do 9 (destruct k as [|k];
        [eexists _, _, _, _, _; split; [reflexivity|];
         split; [discriminate|];
         split; [unfold summary; rewrite np_min_int, np_max_int; reflexivity|];
         by repeat split|]).
  lia.
Qed.



(** C6, as the code has it.  When the three raw max-values of a group are
    zero the loop raises nothing; in that group every element of max
    becomes nan, and an element x of avg, std or min becomes x/0: nan for
    x = 0, -inf for x < 0, inf for x > 0.  When the group's columns hold no
    negative value, every element of the group becomes nan. *)
Theorem zero_group_normalized (p : pass) (s : series) (cols : list (list Z))
    (i : nat) :
  p ∈ passes →
  summarises s cols →
  i < 3 →
  (∀ k, i * 3 ≤ k < (i + 1) * 3 → mx s !! k = Some (Fin 0)) →
  ∃ s', normalize p s = Ok s'
    ∧ ∀ k, i * 3 ≤ k < (i + 1) * 3 →
        mx s' !! k = Some NaN
        ∧ (∃ a d lo : R,
             avg s !! k = Some (Fin a) ∧ std s !! k = Some (Fin d)
             ∧ mn s !! k = Some (Fin lo)
             ∧ avg s' !! k = Some (by_zero a)
             ∧ std s' !! k = Some (by_zero d)
             ∧ mn s' !! k = Some (by_zero lo))
        ∧ ((∀ col z, cols !! k = Some col → z ∈ col → (0 ≤ z)%Z) →
           avg s' !! k = Some NaN ∧ std s' !! k = Some NaN
           ∧ mn s' !! k = Some NaN).
Proof.
  intros Hp (Ha & Hs & Hn & Hx & Hcols) Hi Hzero.
  pose proof (zero_slice_max (mx s) i Hx Hi Hzero) as Hd.
  destruct (normalize_lookup p s i (Fin 0) Hp Ha Hs Hn Hx Hi Hd)
    as (s' & Hrun & _ & _ & _ & _ & Hk).
  exists s'. split; [exact Hrun|]. intros k Hin.
  destruct (Hk k Hin) as (Ea & Es & En & Ex).
  destruct (Hcols k ltac:(lia))
    as (col & a & d & lo & hi & Hcol & Hne & Hsum & Ka & Ks & Kn & Kx).
  rewrite (Hzero k Hin) in Kx. injection Kx as <-.
  destruct (summary_finite col a d lo (Fin 0) Hne Hsum)
    as (ra & rd & rlo & rhi & -> & -> & -> & _ & _ & _).
  rewrite Ea, Es, En, Ex, Ka, Ks, Kn, (Hzero k Hin), !scaled_zero.
  split; [by rewrite by_zero_0|]. split.
  - exists ra, rd, rlo. by repeat split.
  - intros Hpos.
    destruct (zero_column col (Fin ra) (Fin rd) (Fin rlo) Hne
                (fun z Hz => Hpos col z Hcol Hz) Hsum) as (Za & Zd & Zl).
    injection Za as ->. injection Zd as ->. injection Zl as ->.
    by rewrite by_zero_0.
Qed.

Lemma sample_stats_zero (k : nat) :
  2 * 3 ≤ k < (2 + 1) * 3 → mx sample_stats !! k = Some (Fin 0).
Proof.
  intros Hk. do 9 (destruct k as [|k]; [first [lia | reflexivity]|]). lia.
Qed.

Lemma zero_group_normalized_witness :
  ∃ s', normalize job_pass sample_stats = Ok s'
    ∧ ∀ k, 2 * 3 ≤ k < (2 + 1) * 3 →
        mx s' !! k = Some NaN
        ∧ (∃ a d lo : R,
             avg sample_stats !! k = Some (Fin a)
             ∧ std sample_stats !! k = Some (Fin d)
             ∧ mn sample_stats !! k = Some (Fin lo)
             ∧ avg s' !! k = Some (by_zero a)
             ∧ std s' !! k = Some (by_zero d)
             ∧ mn s' !! k = Some (by_zero lo))
        ∧ ((∀ col z, sample_cols !! k = Some col → z ∈ col → (0 ≤ z)%Z) →
           avg s' !! k = Some NaN ∧ std s' !! k = Some NaN
           ∧ mn s' !! k = Some NaN).
Proof.
  apply (zero_group_normalized job_pass sample_stats sample_cols 2);
    [left | exact sample_summarises | lia | exact sample_stats_zero].
Defined.

Lemma summary_negative :
  summary [-2; 0]%Z = Ok [Fin (-1); Fin 1; Fin (-2); Fin 0].
Proof.
  rewrite summary_cons.
  assert (IZR (np_sum [-2; 0]%Z) / INR (length [-2; 0]%Z) = -1)%R as ->.
  { simpl. rewrite !plus_IZR. lra. }
  assert (sq_dev (-1) [-2; 0]%Z / INR (length [-2; 0]%Z) = 1)%R as ->.
  { simpl. lra. }
  rewrite sqrt_1. reflexivity.
Qed.

(** C6 as stated fails: with the rows -2 and 0 in every file the maxima of
    the first group are all zero, and normalisation turns the group's
    averages and minima into -inf and its deviations into inf, not nan. *)
Lemma zero_group_not_all_nan :
  summarises negative_stats negative_cols
  ∧ (∀ k, 0 * 3 ≤ k < (0 + 1) * 3 → mx negative_stats !! k = Some (Fin 0))
  ∧ ∃ s', normalize job_pass negative_stats = Ok s'
      ∧ avg s' !! 0 = Some NInf ∧ avg s' !! 0 ≠ Some NaN
      ∧ std s' !! 0 = Some PInf
      ∧ mn s' !! 0 = Some NInf.
Proof.
  split; [|split].
  - do 4 (split; [reflexivity|]). intros k Hk.
    exists [-2; 0]%Z, (Fin (-1)), (Fin 1), (Fin (-2)), (Fin 0).
    do 9 (destruct k as [|k];
          [split; [reflexivity|]; split; [discriminate|];
           split; [exact summary_negative|]; by repeat split|]).
    lia.
  - intros k Hk.
    do 3 (destruct k as [|k]; [reflexivity|]). lia.
  - eexists. split.
    + unfold negative_stats. cbn [replicate].
      rewrite (normalize_nine job_pass) by left. reflexivity.
    + cbn [avg std mn lookup list_lookup foldl].
      assert (np_maximum (np_maximum (Fin 0) (Fin 0)) (Fin 0) = Fin 0) as ->.
      { cbn. unfold Rmax. rdec. reflexivity. }
      rewrite !np_true_divide_by_zero. unfold by_zero. rdec.
      by repeat split.
Qed.

(** ** Facts about the label placement *)

Lemma job_labels_nine (h0 h1 h2 h3 h4 h5 h6 h7 h8 : npfloat) :
  job_labels [h0; h1; h2; h3; h4; h5; h6; h7; h8]
  = Ok [ {| text_x := 25 / 100;
            text_y := np_add (np_maximum h0 h1) offset;
            text_s := "CP" |};
         {| text_x := 125 / 100;
            text_y := if np_isnan (foldl np_maximum h3 [h4; h5]) then offset
                      else np_add (foldl np_maximum h3 [h4; h5]) offset;
            text_s := "WT" |};
         {| text_x := 225 / 100;
            text_y := np_add (foldl np_maximum h6 [h7; h8]) offset;
            text_s := "MS" |} ].
Proof.
  unfold job_labels.
  cbn [slice take drop Nat.sub np_max mbind result_bind].
  destruct (np_isnan (foldl np_maximum h3 [h4; h5])); reflexivity.
Qed.

Lemma task_labels_nine (h0 h1 h2 h3 h4 h5 h6 h7 h8 : npfloat) :
  task_labels [h0; h1; h2; h3; h4; h5; h6; h7; h8]
  = Ok [ {| text_x := 25 / 100;
            text_y := np_add (np_maximum h0 h1) offset;
            text_s := "EX" |};
         {| text_x := 125 / 100;
            text_y := np_add (foldl np_maximum h3 [h4; h5]) offset;
            text_s := "WT" |};
         {| text_x := 225 / 100;
            text_y := np_add (foldl np_maximum h6 [h7; h8]) offset;
            text_s := "TA" |} ].
Proof. reflexivity. Qed.

(** C3, as the code has it.  In the job pass exactly the second label (WT)
    substitutes the fallback 0.05 for a nan maximum, and the first and third
    labels do not; in the task pass none of the three labels does: a nan
    maximum gives a nan position. *)
Theorem nan_substitution :
  substitutes job_labels 1
  ∧ propagates job_labels 0 ∧ propagates job_labels 2
  ∧ ∀ j, j < 3 → propagates task_labels j.
Proof.
  split; [|split; [|split]].
  - intros l Hl H.
    destruct (length_nine l Hl) as (h0&h1&h2&h3&h4&h5&h6&h7&h8&->).
    rewrite job_labels_nine. eexists _, _.
    split; [reflexivity|]. split; [reflexivity|].
    cbn in H. injection H as H. cbn [text_y foldl]. by rewrite H.
  - intros l Hl H.
    destruct (length_nine l Hl) as (h0&h1&h2&h3&h4&h5&h6&h7&h8&->).
    rewrite job_labels_nine. eexists _, _.
    split; [reflexivity|]. split; [reflexivity|].
    cbn in H. injection H as H. cbn [text_y]. by rewrite H.
  - intros l Hl H.
    destruct (length_nine l Hl) as (h0&h1&h2&h3&h4&h5&h6&h7&h8&->).
    rewrite job_labels_nine. eexists _, _.
    split; [reflexivity|]. split; [reflexivity|].
    cbn in H. injection H as H. cbn [text_y foldl]. by rewrite H.
  - intros j Hj l Hl H.
    destruct (length_nine l Hl) as (h0&h1&h2&h3&h4&h5&h6&h7&h8&->).
    rewrite task_labels_nine. 
    destruct j as [|[|[|j]]]; [| | |lia];
      cbn in H; injection H as H; eexists _, _;
      (split; [reflexivity|]); (split; [reflexivity|]);
      cbn [text_y foldl]; by rewrite H.
Qed.

(** C3 as stated fails in the task pass: there no label substitutes the
    fallback.  With every normalised max-value nan, the three task labels
    sit at nan, none at 0.05. *)
Lemma task_pass_no_substitution :
  (∃ t0 t1 t2, task_labels (replicate 9 NaN) = Ok [t0; t1; t2]
     ∧ text_y t0 = NaN ∧ text_y t1 = NaN ∧ text_y t2 = NaN)
  ∧ ¬ ∃ j, j < 3 ∧ substitutes task_labels j.
Proof.
  split.
  - eexists _, _, _. split; [reflexivity|]. by repeat split.
  - intros (j & Hj & H).
    destruct (H (replicate 9 NaN) eq_refl) as (ts & t & Hts & Ht & Hy).
    { by destruct j as [|[|[|j]]]. }
    cbn [replicate] in Hts. rewrite task_labels_nine in Hts.
    injection Hts as <-.
    destruct j as [|[|[|j]]]; [| | |lia];
      cbn in Ht; injection Ht as <-; discriminate Hy.
Qed.

(** ** Facts about the loops and the table *)

Section loops.
Context {A S : Type}.
Implicit Types (l : list A) (body : S → A → result S) (s : S).

Lemma for_each_ext l (f g : S → A → result S) s :
  (∀ s x, x ∈ l → f s x = g s x) → for_each l f s = for_each l g s.
Proof.
  revert s. induction l as [|a l IH]; intros s H; [reflexivity|].
  cbn [for_each]. rewrite (H s a) by left.
  destruct (g s a) as [s'|e]; [|reflexivity].
  cbn [mbind result_bind]. apply IH. intros s0 x Hx. apply H. by right.
Qed.

(** A measure that grows by [n] in every iteration has grown by
    [n * length l] when the loop ends normally. *)
Lemma for_each_count (sz : S → nat) (n : nat) l body s s' :
  (∀ s x s', body s x = Ok s' → sz s' = sz s + n) →
  for_each l body s = Ok s' → sz s' = sz s + n * length l.
Proof.
  intros Hbody. revert s. induction l as [|a l IH]; intros s H.
  - injection H as <-. cbn [length]. lia.
  - cbn [for_each] in H.
    destruct (body s a) as [s1|e] eqn:E; [|discriminate H].
    cbn [mbind result_bind] in H. rewrite (IH _ H), (Hbody _ _ _ E).
    cbn [length]. lia.
Qed.

(** A loop whose iterations all end normally under an invariant ends
    normally. *)
Lemma for_each_ok (P : S → Prop) l body s :
  P s →
  (∀ s x, x ∈ l → P s → ∃ s', body s x = Ok s' ∧ P s') →
  ∃ s', for_each l body s = Ok s' ∧ P s'.
Proof.
  revert s. induction l as [|a l IH]; intros s Hs H; [by exists s|].
  destruct (H s a ltac:(left) Hs) as (s1 & E & Hs1).
  cbn [for_each]. rewrite E. cbn [mbind result_bind].
  apply IH; [exact Hs1|]. intros s0 x Hx. apply H. by right.
Qed.
End loops.

Lemma build_from_lookup {V} (ks : list string) (f : string → result V)
    (d0 d : gmap string V) :
  for_each ks (fun d k => v ← f k; mret (<[k := v]> d)) d0 = Ok d →
  (∀ k, k ∈ ks → ∃ v, f k = Ok v ∧ d !! k = Some v)
  ∧ (∀ k, k ∉ ks → d !! k = d0 !! k).
Proof.
  revert d0. induction ks as [|k0 ks IH]; intros d0 H.
  - injection H as <-. split; [|done]. intros k Hk. by apply elem_of_nil in Hk.
  - cbn [for_each] in H. destruct (f k0) as [v0|e] eqn:E; [|discriminate H].
    cbn [mbind result_bind mret result_ret] in H.
    destruct (IH _ H) as [Hin Hout]. split.
    + intros k Hk. destruct (decide (k ∈ ks)) as [Hks|Hks]; [by apply Hin|].
      apply elem_of_cons in Hk as [->|Hk]; [|contradiction].
      exists v0. split; [exact E|].
      rewrite (Hout k0 Hks). apply lookup_insert_eq.
    + intros k Hk. apply not_elem_of_cons in Hk as [Hne Hks].
      rewrite (Hout k Hks). by apply lookup_insert_ne.
Qed.

Lemma build_lookup {V} (ks : list string) (f : string → result V)
    (d : gmap string V) (k : string) :
  build ks f = Ok d → k ∈ ks → ∃ v, f k = Ok v ∧ d !! k = Some v.
Proof. intros H Hk. by apply (build_from_lookup ks f ∅ d H). Qed.

Lemma build_ok {V} (ks : list string) (f : string → result V) :
  (∀ k, k ∈ ks → ∃ v, f k = Ok v) → ∃ d, build ks f = Ok d.
Proof.
  intros H.
  destruct (for_each_ok (fun _ : gmap string V => True) ks
              (fun d k => v ← f k; mret (<[k := v]> d)) ∅ I) as (d & Hd & _).
  - intros d k Hk _. destruct (H k Hk) as (v & ->). by eexists.
  - by exists d.
Qed.

Lemma build_raise {V} (ks : list string) (f : string → result V)
    (k : string) (e : exn) :
  k ∈ ks → f k = Raise e → ∃ e', build ks f = Raise e'.
Proof.
  intros Hk Hf. destruct (build ks f) as [d|e'] eqn:E; [|by exists e'].
  destruct (build_lookup ks f d k E Hk) as (v & Hv & _). congruence.
Qed.

Lemma build_ext {V} (ks : list string) (f g : string → result V) :
  (∀ k, k ∈ ks → f k = g k) → build ks f = build ks g.
Proof.
  intros H. unfold build. apply for_each_ext.
  intros d k Hk. by rewrite (H k Hk).
Qed.

(** ** Facts about loading *)

Lemma summary_nil : summary [] = Raise ValueError_reduction.
Proof. reflexivity. Qed.

Lemma summary_inv (l : list Z) (s : list npfloat) :
  summary l = Ok s → l ≠ [] ∧ ∃ a d lo hi, s = [a; d; lo; hi].
Proof.
  destruct l as [|x xs]; [discriminate|]. rewrite summary_cons.
  intros H. injection H as <-. split; [discriminate|]. by eexists _, _, _, _.
Qed.

Lemma load_metrics_inv (p : pass) (fs : files) (setup trace sched : string)
    (d : gmap string (list npfloat)) :
  load_metrics p fs setup trace sched = Ok d →
  ∃ l1 l2 l3 s1 s2 s3,
    summary l1 = Ok s1 ∧ summary l2 = Ok s2 ∧ summary l3 = Ok s3
    ∧ d = <[(keys p).2 := s3]>
            (<[(keys p).1.2 := s2]> (<[(keys p).1.1 := s1]> ∅)).
Proof.
  unfold load_metrics. destruct (keys p) as [[k1 k2] k3].
  destruct (open_csv fs _) as [rows|e]; [|discriminate].
  cbn [mbind result_bind].
  destruct (for_each rows _ _) as [[[l1 l2] l3]|e]; [|discriminate].
  cbn [mbind result_bind].
  destruct (summary l1) as [s1|e] eqn:E1; [|discriminate].
  cbn [mbind result_bind].
  destruct (summary l2) as [s2|e] eqn:E2; [|discriminate].
  cbn [mbind result_bind].
  destruct (summary l3) as [s3|e] eqn:E3; [|discriminate].
  cbn [mbind result_bind mret result_ret].
  intros H. injection H as <-.
  by exists l1, l2, l3, s1, s2, s3.
Qed.

Lemma stat_run (res : table) (setup trace sched metric : string)
    (d1 : gmap string (gmap string (gmap string (list npfloat))))
    (d2 : gmap string (gmap string (list npfloat)))
    (d3 : gmap string (list npfloat)) (l : list npfloat) (i : nat) :
  res !! setup = Some d1 → d1 !! trace = Some d2 → d2 !! sched = Some d3 →
  d3 !! metric = Some l →
  stat res setup trace sched metric i = list_get l i.
Proof.
  intros H1 H2 H3 H4. unfold stat, dict_get.
  rewrite H1. cbn [mbind result_bind]. rewrite H2. cbn [mbind result_bind].
  rewrite H3. cbn [mbind result_bind]. rewrite H4. reflexivity.
Qed.

Lemma append_stats_run (res : table) (setup trace sched metric : string)
    (d1 : gmap string (gmap string (gmap string (list npfloat))))
    (d2 : gmap string (gmap string (list npfloat)))
    (d3 : gmap string (list npfloat)) (a d lo hi : npfloat) (s : series) :
  res !! setup = Some d1 → d1 !! trace = Some d2 → d2 !! sched = Some d3 →
  d3 !! metric = Some [a; d; lo; hi] →
  append_stats res setup trace metric s sched
  = Ok {| avg := avg s ++ [a]; std := std s ++ [d];
          mn := mn s ++ [lo]; mx := mx s ++ [hi] |}.
Proof.
  intros H1 H2 H3 H4. unfold append_stats.
  rewrite !(stat_run res setup trace sched metric d1 d2 d3 _ _ H1 H2 H3 H4).
  reflexivity.
Qed.

Lemma pass_shape (p : pass) :
  p ∈ passes →
  ∃ m1 m2 m3, keys p = (m1, m2, m3) ∧ metrics p = [m1; m2; m3]
    ∧ m1 ≠ m2 ∧ m1 ≠ m3 ∧ m2 ≠ m3.
Proof.
  intros Hp. apply elem_of_cons in Hp as [->|Hp];
    [|apply list_elem_of_singleton in Hp as ->];
    eexists _, _, _; by repeat split.
Qed.

(** What a loaded dictionary results[setup][trace][sched] holds. *)
Lemma loaded_sched (p : pass) (fs : files) (setup trace sched : string)
    (m1 m2 m3 : string) (d2 : gmap string (gmap string (list npfloat))) :
  keys p = (m1, m2, m3) → m1 ≠ m2 → m1 ≠ m3 → m2 ≠ m3 →
  build schedulers (load_metrics p fs setup trace) = Ok d2 →
  sched ∈ schedulers →
  ∃ d3 c1 c2 c3 a1 e1 lo1 hi1 a2 e2 lo2 hi2 a3 e3 lo3 hi3,
    d2 !! sched = Some d3
    ∧ c1 ≠ [] ∧ summary c1 = Ok [a1; e1; lo1; hi1]
    ∧ d3 !! m1 = Some [a1; e1; lo1; hi1]
    ∧ c2 ≠ [] ∧ summary c2 = Ok [a2; e2; lo2; hi2]
    ∧ d3 !! m2 = Some [a2; e2; lo2; hi2]
    ∧ c3 ≠ [] ∧ summary c3 = Ok [a3; e3; lo3; hi3]
    ∧ d3 !! m3 = Some [a3; e3; lo3; hi3].
Proof.
  intros Hkeys H12 H13 H23 Hb Hs.
  destruct (build_lookup _ _ _ sched Hb Hs) as (d3 & Hload & Hd3).
  destruct (load_metrics_inv _ _ _ _ _ _ Hload)
    as (c1 & c2 & c3 & s1 & s2 & s3 & E1 & E2 & E3 & ->).
  destruct (summary_inv _ _ E1) as (N1 & a1 & e1 & lo1 & hi1 & ->).
  destruct (summary_inv _ _ E2) as (N2 & a2 & e2 & lo2 & hi2 & ->).
  destruct (summary_inv _ _ E3) as (N3 & a3 & e3 & lo3 & hi3 & ->).
  exists (<[m3 := [a3; e3; lo3; hi3]]>
            (<[m2 := [a2; e2; lo2; hi2]]> (<[m1 := [a1; e1; lo1; hi1]]> ∅))).
  exists c1, c2, c3, a1, e1, lo1, hi1, a2, e2, lo2, hi2, a3, e3, lo3, hi3.
  rewrite Hkeys in Hd3. cbn [fst snd] in Hd3.
  split; [exact Hd3|].
  repeat split; try assumption.
  - rewrite lookup_insert_ne by done. rewrite lookup_insert_ne by done.
    apply lookup_insert_eq.
  - rewrite lookup_insert_ne by done. apply lookup_insert_eq.
  - apply lookup_insert_eq.
Qed.

(** After a successful load, every subplot's four lists are composed, nine
    elements each, of the summaries of non-empty columns. *)
Lemma collect_loaded (p : pass) (fs : files) (res : table)
    (setup trace : string) :
  p ∈ passes →
  load_results p fs = Ok res →
  setup ∈ setups → trace ∈ traces →
  ∃ s cols, collect p res setup trace = Ok s ∧ summarises s cols.
Proof.
  intros Hp Hload Hsetup Htrace.
  destruct (pass_shape p Hp) as (m1 & m2 & m3 & Hkeys & Hmet & H12 & H13 & H23).
  destruct (build_lookup _ _ _ setup Hload Hsetup) as (d1 & Hb1 & Hr1).
  destruct (build_lookup _ _ _ trace Hb1 Htrace) as (d2 & Hb2 & Hr2).
  destruct (loaded_sched p fs setup trace "FCP" m1 m2 m3 d2
              Hkeys H12 H13 H23 Hb2 ltac:(repeat constructor))
    as (dF & cF1 & cF2 & cF3 & aF1 & eF1 & lF1 & hF1 & aF2 & eF2 & lF2 & hF2
        & aF3 & eF3 & lF3 & hF3 & HdF & NF1 & SF1 & LF1 & NF2 & SF2 & LF2
        & NF3 & SF3 & LF3).
  destruct (loaded_sched p fs setup trace "Lottery" m1 m2 m3 d2
              Hkeys H12 H13 H23 Hb2 ltac:(repeat constructor))
    as (dL & cL1 & cL2 & cL3 & aL1 & eL1 & lL1 & hL1 & aL2 & eL2 & lL2 & hL2
        & aL3 & eL3 & lL3 & hL3 & HdL & NL1 & SL1 & LL1 & NL2 & SL2 & LL2
        & NL3 & SL3 & LL3).
  destruct (loaded_sched p fs setup trace "DS" m1 m2 m3 d2
              Hkeys H12 H13 H23 Hb2 ltac:(repeat constructor))
    as (dD & cD1 & cD2 & cD3 & aD1 & eD1 & lD1 & hD1 & aD2 & eD2 & lD2 & hD2
        & aD3 & eD3 & lD3 & hD3 & HdD & ND1 & SD1 & LD1 & ND2 & SD2 & LD2
        & ND3 & SD3 & LD3).
  eexists _, [cF1; cL1; cD1; cF2; cL2; cD2; cF3; cL3; cD3].
  unfold collect. rewrite Hmet. cbn [for_each schedulers].
  split.
  - rewrite (append_stats_run res setup trace "FCP" m1 d1 d2 dF _ _ _ _ _
               Hr1 Hr2 HdF LF1). cbn [mbind result_bind].
    rewrite (append_stats_run res setup trace "Lottery" m1 d1 d2 dL _ _ _ _ _
               Hr1 Hr2 HdL LL1). cbn [mbind result_bind].
    rewrite (append_stats_run res setup trace "DS" m1 d1 d2 dD _ _ _ _ _
               Hr1 Hr2 HdD LD1). cbn [mbind result_bind].
    rewrite (append_stats_run res setup trace "FCP" m2 d1 d2 dF _ _ _ _ _
               Hr1 Hr2 HdF LF2). cbn [mbind result_bind].
    rewrite (append_stats_run res setup trace "Lottery" m2 d1 d2 dL _ _ _ _ _
               Hr1 Hr2 HdL LL2). cbn [mbind result_bind].
    rewrite (append_stats_run res setup trace "DS" m2 d1 d2 dD _ _ _ _ _
               Hr1 Hr2 HdD LD2). cbn [mbind result_bind].
    rewrite (append_stats_run res setup trace "FCP" m3 d1 d2 dF _ _ _ _ _
               Hr1 Hr2 HdF LF3). cbn [mbind result_bind].
    rewrite (append_stats_run res setup trace "Lottery" m3 d1 d2 dL _ _ _ _ _
               Hr1 Hr2 HdL LL3). cbn [mbind result_bind].
    rewrite (append_stats_run res setup trace "DS" m3 d1 d2 dD _ _ _ _ _
               Hr1 Hr2 HdD LD3). cbn [mbind result_bind avg std mn mx app].
    reflexivity.
  - do 4 (split; [reflexivity|]). intros k Hk. cbn [avg std mn mx].
    do 9 (destruct k as [|k];
          [eexists _, _, _, _, _; split; [reflexivity|];
           split; [eassumption|]; split; [eassumption|]; by repeat split|]).
    lia.
Qed.

(** ** Facts about rendering *)

Lemma normalize_ok (p : pass) (s : series) :
  p ∈ passes →
  length (avg s) = 9 → length (std s) = 9 →
  length (mn s) = 9 → length (mx s) = 9 →
  ∃ s', normalize p s = Ok s' ∧ length (mx s') = 9.
Proof.
  intros Hp Ha Hs Hn Hx. destruct s as [a sd lo hi]. simpl in *.
  destruct (length_nine a Ha) as (a0&a1&a2&a3&a4&a5&a6&a7&a8&->).
  destruct (length_nine sd Hs) as (s0&s1&s2&s3&s4&s5&s6&s7&s8&->).
  destruct (length_nine lo Hn) as (l0&l1&l2&l3&l4&l5&l6&l7&l8&->).
  destruct (length_nine hi Hx) as (h0&h1&h2&h3&h4&h5&h6&h7&h8&->).
  rewrite (normalize_nine p) by exact Hp. by eexists.
Qed.

Lemma labels_ok (p : pass) (labels : list npfloat → result (list text))
    (l : list npfloat) :
  (p, labels) ∈ programs → length l = 9 → ∃ ts, labels l = Ok ts.
Proof.
  intros Hp Hl.
  destruct (length_nine l Hl) as (h0&h1&h2&h3&h4&h5&h6&h7&h8&->).
  apply elem_of_cons in Hp as [Hp|Hp];
    [|apply list_elem_of_singleton in Hp]; injection Hp as -> ->.
  - rewrite job_labels_nine. by eexists.
  - rewrite task_labels_nine. by eexists.
Qed.

Lemma programs_pass (p : pass) (labels : list npfloat → result (list text)) :
  (p, labels) ∈ programs → p ∈ passes.
Proof.
  intros Hp. apply elem_of_cons in Hp as [Hp|Hp];
    [|apply list_elem_of_singleton in Hp]; injection Hp as -> ->;
    repeat constructor.
Qed.

Section loaded_pass.
Variables (p : pass) (labels : list npfloat → result (list text)).
Variables (fs : files) (res : table).
Hypothesis Hpl : (p, labels) ∈ programs.
Hypothesis Hload : load_results p fs = Ok res.

(** Once the table is loaded, no subplot of the pass raises. *)
Lemma render_subplot_ok (setup trace : string) :
  setup ∈ setups → trace ∈ traces →
  ∃ sp, render_subplot p labels res setup trace = Ok sp.
Proof.
  intros Hsetup Htrace.
  pose proof (programs_pass p labels Hpl) as Hp.
  destruct (collect_loaded p fs res setup trace Hp Hload Hsetup Htrace)
    as (s & cols & Hs & (Ha & Hd & Hn & Hx & _)).
  destruct (normalize_ok p s Hp Ha Hd Hn Hx) as (s' & Hs' & Hx').
  destruct (labels_ok p labels (mx s') Hpl Hx') as (ts & Hts).
  unfold render_subplot. rewrite Hs. cbn [mbind result_bind].
  rewrite Hs'. cbn [mbind result_bind]. rewrite Hts. by eexists.
Qed.

Lemma render_figure_ok (setup : string) :
  setup ∈ setups → ∃ fig, render_figure p labels res setup = Ok fig.
Proof.
  intros Hsetup. unfold render_figure.
  destruct (for_each_ok (fun _ : list subplot => True) traces
              (fun fig trace =>
                 sp ← render_subplot p labels res setup trace;
                 mret (fig ++ [sp])) [] I) as (fig & Hfig & _).
  - intros fig trace Htrace _.
    destruct (render_subplot_ok setup trace Hsetup Htrace) as (sp & ->).
    by eexists.
  - by exists fig.
Qed.
End loaded_pass.

Lemma render_all_ok (p : pass)
    (labels : list npfloat → result (list text)) (res : table)
    (ss : list string) :
  (∀ setup, setup ∈ ss → ∃ fig, render_figure p labels res setup = Ok fig) →
  ∃ w, render_all p labels res ss = (w, None).
Proof.
  induction ss as [|setup ss IH]; intros H; [by eexists|].
  destruct (H setup ltac:(left)) as (fig & Hfig).
  destruct IH as (w & Hw). { intros s0 Hs0. apply H. by right. }
  cbn [render_all]. rewrite Hfig, Hw. by eexists.
Qed.

(** A pass that ends without exception saved one figure per setup, in
    order, under the setup's name followed by the suffix. *)
Lemma render_all_names (p : pass)
    (labels : list npfloat → result (list text)) (res : table)
    (ss : list string) (w : list (string * list subplot)) :
  render_all p labels res ss = (w, None) →
  w.*1 = (fun setup => setup +:+ suffix p) <$> ss.
Proof.
  revert w. induction ss as [|setup ss IH]; intros w H.
  - injection H as <-. reflexivity.
  - cbn [render_all] in H.
    destruct (render_figure p labels res setup) as [fig|e]; [|discriminate H].
    destruct (render_all p labels res ss) as [w' e'].
    injection H as <- ->. cbn [fmap list_fmap fst]. f_equal. by apply IH.
Qed.

Lemma run_pass_names (p : pass)
    (labels : list npfloat → result (list text)) (fs : files)
    (w : list (string * list subplot)) :
  run_pass p labels fs = (w, None) →
  w.*1 = (fun setup => setup +:+ suffix p) <$> setups.
Proof.
  unfold run_pass. destruct (load_results p fs) as [res|e]; [|discriminate].
  apply render_all_names.
Qed.

(** ** Facts about complete runs *)

Lemma int_ok (row : gmap string cell) (col : string) (z : Z) :
  row !! col = Some (IntText z) → int row col = Ok z.
Proof. intros H. unfold int, dict_get. by rewrite H. Qed.

Lemma read_row_ok (p : pass) (row : gmap string cell) (l1 l2 l3 : list Z) :
  int_row p row →
  ∃ x y z, read_row p (l1, l2, l3) row = Ok (l1 ++ [x], l2 ++ [y], l3 ++ [z]).
Proof.
  unfold int_row, read_row. destruct (columns p) as [[c1 c2] c3].
  cbn [fst snd]. intros (x & y & z & Hx & Hy & Hz). exists x, y, z.
  rewrite (int_ok _ _ _ Hx). cbn [mbind result_bind].
  rewrite (int_ok _ _ _ Hy). cbn [mbind result_bind].
  rewrite (int_ok _ _ _ Hz). reflexivity.
Qed.

Lemma read_rows_ok (p : pass) (rows : list (gmap string cell))
    (l1 l2 l3 : list Z) :
  (∀ row, row ∈ rows → int_row p row) →
  ∃ l1' l2' l3',
    for_each rows (read_row p) (l1, l2, l3) = Ok (l1', l2', l3')
    ∧ length l1' = length l1 + length rows
    ∧ length l2' = length l2 + length rows
    ∧ length l3' = length l3 + length rows.
Proof.
  revert l1 l2 l3. induction rows as [|row rows IH]; intros l1 l2 l3 H.
  - exists l1, l2, l3. cbn [length]. by repeat split; try lia.
  - destruct (read_row_ok p row l1 l2 l3 (H row ltac:(left)))
      as (x & y & z & Hrow).
    destruct (IH (l1 ++ [x]) (l2 ++ [y]) (l3 ++ [z])) as
      (l1' & l2' & l3' & Hrun & E1 & E2 & E3).
    { intros r Hr. apply H. by right. }
    exists l1', l2', l3'. split.
    + cbn [for_each]. rewrite Hrow. exact Hrun.
    + rewrite length_app in E1, E2, E3. cbn [length] in *. lia.
Qed.

Lemma summary_ok (l : list Z) : 0 < length l → ∃ s, summary l = Ok s.
Proof.
  destruct l as [|x xs]; cbn [length]; [lia|]. intros _.
  rewrite summary_cons. by eexists.
Qed.

Lemma load_metrics_ok (p : pass) (fs : files) (setup trace sched : string)
    (rows : list (gmap string cell)) :
  fs (csv_path p setup trace sched) = Some rows →
  rows ≠ [] →
  (∀ row, row ∈ rows → int_row p row) →
  ∃ d, load_metrics p fs setup trace sched = Ok d.
Proof.
  intros Hfile Hne Hrows.
  destruct (read_rows_ok p rows [] [] [] Hrows)
    as (l1 & l2 & l3 & Hrun & E1 & E2 & E3).
  assert (0 < length rows) as Hlen by (destruct rows; [done|cbn; lia]).
  destruct (summary_ok l1 ltac:(lia)) as (s1 & H1).
  destruct (summary_ok l2 ltac:(lia)) as (s2 & H2).
  destruct (summary_ok l3 ltac:(lia)) as (s3 & H3).
  unfold load_metrics, open_csv. destruct (keys p) as [[k1 k2] k3].
  rewrite Hfile. cbn [mbind result_bind]. rewrite Hrun.
  cbn [mbind result_bind]. rewrite H1. cbn [mbind result_bind].
  rewrite H2. cbn [mbind result_bind]. rewrite H3. by eexists.
Qed.

Lemma load_results_ok (p : pass) (fs : files) :
  well_formed p fs → ∃ res, load_results p fs = Ok res.
Proof.
  intros H. unfold load_results.
  apply build_ok. intros setup Hsetup.
  apply build_ok. intros trace Htrace.
  apply build_ok. intros sched Hsched.
  destruct (H setup trace sched Hsetup Htrace Hsched)
    as (rows & Hfile & Hne & Hrows).
  by apply (load_metrics_ok p fs setup trace sched rows).
Qed.

Lemma run_pass_ok (p : pass)
    (labels : list npfloat → result (list text)) (fs : files) :
  (p, labels) ∈ programs → well_formed p fs →
  ∃ w, run_pass p labels fs = (w, None).
Proof.
  intros Hpl Hwf. destruct (load_results_ok p fs Hwf) as (res & Hres).
  unfold run_pass. rewrite Hres. apply render_all_ok.
  intros setup Hsetup. by apply (render_figure_ok p labels fs res Hpl Hres).
Qed.

Lemma run_ok (fs : files) :
  well_formed job_pass fs → well_formed task_pass fs →
  ∃ wj wt,
    run_pass job_pass job_labels fs = (wj, None)
    ∧ run_pass task_pass task_labels fs = (wt, None)
    ∧ run fs = (wj ++ wt, None).
Proof.
  intros Hj Ht.
  destruct (run_pass_ok job_pass job_labels fs ltac:(repeat constructor) Hj)
    as (wj & Hwj).
  destruct (run_pass_ok task_pass task_labels fs ltac:(repeat constructor) Ht)
    as (wt & Hwt).
  exists wj, wt. unfold run. by rewrite Hwj, Hwt.
Qed.

(** A run that ends without exception is a complete job pass followed by a
    complete task pass. *)
Lemma run_complete (fs : files) :
  (run fs).2 = None →
  ∃ wj wt,
    run_pass job_pass job_labels fs = (wj, None)
    ∧ run_pass task_pass task_labels fs = (wt, None)
    ∧ run fs = (wj ++ wt, None).
Proof.
  unfold run.
  destruct (run_pass job_pass job_labels fs) as [wj [e|]]; [discriminate|].
  destruct (run_pass task_pass task_labels fs) as [wt [e|]]; [discriminate|].
  intros _. by exists wj, wt.
Qed.

Lemma run_names (fs : files) : (run fs).2 = None → (run fs).1.*1 = outputs.
Proof.
  intros H. destruct (run_complete fs H) as (wj & wt & Hj & Ht & ->).
  cbn [fst]. rewrite fmap_app.
  rewrite (run_pass_names _ _ _ _ Hj), (run_pass_names _ _ _ _ Ht).
  reflexivity.
Qed.

Lemma commit_not_in (ws : list (string * list subplot))
    (d : gmap string (list subplot)) (n : string) :
  n ∉ ws.*1 → commit ws d !! n = d !! n.
Proof.
  revert d. induction ws as [|[n0 f0] ws IH]; intros d H; [reflexivity|].
  cbn [fmap list_fmap fst] in H. apply not_elem_of_cons in H as [Hne Hws].
  unfold commit. cbn [foldl]. fold (commit ws (savefig d (n0, f0))).
  rewrite IH by exact Hws. unfold savefig. cbn [fst snd].
  by apply lookup_insert_ne.
Qed.

Lemma commit_in (ws : list (string * list subplot))
    (d : gmap string (list subplot)) (n : string) (f : list subplot) :
  NoDup ws.*1 → (n, f) ∈ ws → commit ws d !! n = Some f.
Proof.
  revert d. induction ws as [|[n0 f0] ws IH]; intros d Hnd Hin.
  - by apply elem_of_nil in Hin.
  - cbn [fmap list_fmap fst] in Hnd. apply NoDup_cons in Hnd as [Hn0 Hnd].
    unfold commit. cbn [foldl]. fold (commit ws (savefig d (n0, f0))).
    apply elem_of_cons in Hin as [E|Hin].
    + injection E as -> ->. rewrite commit_not_in by exact Hn0.
      unfold savefig. cbn [fst snd]. apply lookup_insert_eq.
    + by apply IH.
Qed.

Lemma outputs_NoDup : NoDup outputs.
Proof. compute_done. Qed.

Lemma build_ok_or {V} (ks : list string) (f : string → result V) (e : exn) :
  (∀ k, k ∈ ks → (∃ v, f k = Ok v) ∨ f k = Raise e) →
  (∃ d, build ks f = Ok d) ∨ build ks f = Raise e.
Proof.
  unfold build. generalize (∅ : gmap string V).
  induction ks as [|k ks IH]; intros d0 H; [left; by eexists|].
  cbn [for_each]. destruct (H k ltac:(left)) as [[v ->]| ->]; [|by right].
  cbn [mbind result_bind mret result_ret]. apply IH.
  intros k' Hk'. apply H. by right.
Qed.

Lemma build_raise_exact {V} (ks : list string) (f : string → result V)
    (k : string) (e : exn) :
  (∀ k, k ∈ ks → (∃ v, f k = Ok v) ∨ f k = Raise e) →
  k ∈ ks → f k = Raise e → build ks f = Raise e.
Proof.
  intros H Hk Hf. destruct (build_ok_or ks f e H) as [[d Hd]|Hr]; [|exact Hr].
  destruct (build_lookup ks f d k Hd Hk) as (v & Hv & _). congruence.
Qed.

Lemma load_metrics_empty (p : pass) (fs : files) (setup trace sched : string) :
  fs (csv_path p setup trace sched) = Some [] →
  load_metrics p fs setup trace sched = Raise ValueError_reduction.
Proof.
  intros H. unfold load_metrics, open_csv. destruct (keys p) as [[k1 k2] k3].
  rewrite H. reflexivity.
Qed.

Lemma load_metrics_parsed (p : pass) (fs : files) (setup trace sched : string)
    (rows : list (gmap string cell)) :
  fs (csv_path p setup trace sched) = Some rows →
  (∀ row, row ∈ rows → int_row p row) →
  (∃ d, load_metrics p fs setup trace sched = Ok d)
  ∨ load_metrics p fs setup trace sched = Raise ValueError_reduction.
Proof.
  intros Hfile Hrows. destruct rows as [|row rows].
  - right. by apply load_metrics_empty.
  - left. by apply (load_metrics_ok p fs setup trace sched (row :: rows)).
Qed.

(** C7.  A file of the grid with a header and no rows makes its
    load-and-aggregate step raise the ValueError of the empty reduction
    (np.min); the pass that reads it saves no figure and ends with an
    exception, and so does the run.  When the files of that pass otherwise
    exist and parse, that ValueError is the exception the pass ends with. *)
Theorem empty_csv_raises (p : pass)
    (labels : list npfloat → result (list text)) (fs : files)
    (setup trace sched : string) :
  (p, labels) ∈ programs →
  setup ∈ setups → trace ∈ traces → sched ∈ schedulers →
  fs (csv_path p setup trace sched) = Some [] →
  load_metrics p fs setup trace sched = Raise ValueError_reduction
  ∧ (∃ e, run_pass p labels fs = ([], Some e))
  ∧ (∃ e, (run fs).2 = Some e)
  ∧ ((∀ setup' trace' sched',
        setup' ∈ setups → trace' ∈ traces → sched' ∈ schedulers →
        ∃ rows, fs (csv_path p setup' trace' sched') = Some rows
          ∧ ∀ row, row ∈ rows → int_row p row) →
     run_pass p labels fs = ([], Some ValueError_reduction)).
Proof.
  intros Hpl Hsetup Htrace Hsched Hfile.
  pose proof (load_metrics_empty p fs setup trace sched Hfile) as Hraise.
  assert (∃ e, load_results p fs = Raise e) as (e & Hload).
  { destruct (build_raise schedulers (load_metrics p fs setup trace) sched _
                Hsched Hraise) as (e1 & H1).
    destruct (build_raise traces
                (fun trace => build schedulers (load_metrics p fs setup trace))
                trace _ Htrace H1) as (e2 & H2).
    exact (build_raise setups _ setup _ Hsetup H2). }
  assert (run_pass p labels fs = ([], Some e)) as Hpass.
  { unfold run_pass. by rewrite Hload. }
  split; [exact Hraise|]. split; [by exists e|]. split.
  - unfold run.
    apply elem_of_cons in Hpl as [Hpl|Hpl];
      [|apply list_elem_of_singleton in Hpl]; injection Hpl as -> ->.
    + rewrite Hpass. by eexists.
    + destruct (run_pass job_pass job_labels fs) as [wj [ej|]];
        [by eexists|]. rewrite Hpass. by eexists.
  - intros Hall. unfold run_pass, load_results.
    rewrite (build_raise_exact setups _ setup ValueError_reduction);
      [reflexivity| |exact Hsetup|].
    + intros s1 Hs1. apply build_ok_or. intros t1 Ht1.
      apply build_ok_or. intros c1 Hc1.
      destruct (Hall s1 t1 c1 Hs1 Ht1 Hc1) as (rows & Hf & Hr).
      by apply (load_metrics_parsed p fs s1 t1 c1 rows).
    + apply (build_raise_exact traces _ trace); [|exact Htrace|].
      * intros t1 Ht1. apply build_ok_or. intros c1 Hc1.
        destruct (Hall setup t1 c1 Hsetup Ht1 Hc1) as (rows & Hf & Hr).
        by apply (load_metrics_parsed p fs setup t1 c1 rows).
      * apply (build_raise_exact schedulers _ sched); [|exact Hsched|exact Hraise].
        intros c1 Hc1.
        destruct (Hall setup trace c1 Hsetup Htrace Hc1) as (rows & Hf & Hr).
        by apply (load_metrics_parsed p fs setup trace c1 rows).
Qed.

Lemma empty_csv_raises_witness :
  load_metrics job_pass header_only "setup" "shell" "FCP"
    = Raise ValueError_reduction
  ∧ (∃ e, run_pass job_pass job_labels header_only = ([], Some e))
  ∧ (∃ e, (run header_only).2 = Some e)
  ∧ ((∀ setup' trace' sched',
        setup' ∈ setups → trace' ∈ traces → sched' ∈ schedulers →
        ∃ rows, header_only (csv_path job_pass setup' trace' sched') = Some rows
          ∧ ∀ row, row ∈ rows → int_row job_pass row) →
     run_pass job_pass job_labels header_only
       = ([], Some ValueError_reduction)).
Proof.
  apply (empty_csv_raises job_pass job_labels header_only "setup" "shell" "FCP");
    [repeat constructor | repeat constructor | repeat constructor
    | repeat constructor | reflexivity].
Defined.


Lemma demo_row_int (p : pass) (v : Z) : p ∈ passes → int_row p (demo_row v).
Proof.
  intros Hp. exists v, v, v.
  apply elem_of_cons in Hp as [->|Hp];
    [|apply list_elem_of_singleton in Hp as ->];
    cbn [columns job_pass task_pass fst snd]; unfold demo_row;
    repeat split;
    repeat first [apply lookup_insert_eq | rewrite lookup_insert_ne by done].
Qed.

Lemma demo_files_well_formed (p : pass) : p ∈ passes → well_formed p demo_files.
Proof.
  intros Hp setup trace sched _ _ _. eexists. split; [reflexivity|].
  split; [discriminate|]. intros row Hrow.
  apply elem_of_cons in Hrow as [->|Hrow];
    [|apply list_elem_of_singleton in Hrow as ->]; by apply demo_row_int.
Qed.

Lemma other_files_well_formed (p : pass) :
  p ∈ passes → well_formed p other_files.
Proof.
  intros Hp setup trace sched _ _ _. unfold other_files.
  destruct (String.eqb _ _); eexists; (split; [reflexivity|]);
    (split; [discriminate|]); intros row Hrow.
  - apply list_elem_of_singleton in Hrow as ->. by apply demo_row_int.
  - apply elem_of_cons in Hrow as [->|Hrow];
      [|apply list_elem_of_singleton in Hrow as ->]; by apply demo_row_int.
Qed.


(** ** The task pass does not depend on the job files *)

Lemma load_metrics_agree (p : pass) (fs1 fs2 : files)
    (setup trace sched : string) :
  fs1 (csv_path p setup trace sched) = fs2 (csv_path p setup trace sched) →
  load_metrics p fs1 setup trace sched = load_metrics p fs2 setup trace sched.
Proof. intros H. unfold load_metrics, open_csv. by rewrite H. Qed.

Lemma load_results_agree (p : pass) (fs1 fs2 : files) :
  agree p fs1 fs2 → load_results p fs1 = load_results p fs2.
Proof.
  intros H. unfold load_results.
  apply build_ext. intros setup Hsetup.
  apply build_ext. intros trace Htrace.
  apply build_ext. intros sched Hsched.
  apply load_metrics_agree. by apply H.
Qed.

Lemma render_all_member (p : pass)
    (labels : list npfloat → result (list text)) (res : table)
    (ss : list string) (w : list (string * list subplot)) (setup : string) :
  render_all p labels res ss = (w, None) → setup ∈ ss →
  ∃ fig, (setup +:+ suffix p, fig) ∈ w.
Proof.
  revert w. induction ss as [|s0 ss IH]; intros w H Hin.
  - by apply elem_of_nil in Hin.
  - cbn [render_all] in H.
    destruct (render_figure p labels res s0) as [fig|e]; [|discriminate H].
    destruct (render_all p labels res ss) as [w' e'].
    injection H as <- ->.
    apply elem_of_cons in Hin as [->|Hin].
    + exists fig. left.
    + destruct (IH w' eq_refl Hin) as (fig' & Hfig'). exists fig'. by right.
Qed.

(** C10.  The task pass loads its own table from the task files alone: two
    runs whose task files agree perform the same task pass, and when both
    runs end without exception every "{setup}_task.pdf" holds the same
    series in both, whatever the job files and the files present before
    hold. *)
Theorem task_series_independent (fs1 fs2 : files) :
  agree task_pass fs1 fs2 →
  (run fs1).2 = None → (run fs2).2 = None →
  run_pass task_pass task_labels fs1 = run_pass task_pass task_labels fs2
  ∧ ∀ setup, setup ∈ setups →
      ∀ d1 d2 : gmap string (list subplot),
        ∃ fig,
          commit (run fs1).1 d1 !! (setup +:+ "_task.pdf") = Some fig
          ∧ commit (run fs2).1 d2 !! (setup +:+ "_task.pdf") = Some fig.
Proof.
  intros Hagree H1 H2.
  assert (run_pass task_pass task_labels fs1
          = run_pass task_pass task_labels fs2) as Heq.
  { unfold run_pass. by rewrite (load_results_agree _ _ _ Hagree). }
  split; [exact Heq|]. intros setup Hsetup d1 d2.
  pose proof (run_names fs1 H1) as N1. pose proof (run_names fs2 H2) as N2.
  destruct (run_complete fs1 H1) as (wj1 & wt1 & _ & Ht1 & R1).
  destruct (run_complete fs2 H2) as (wj2 & wt2 & _ & Ht2 & R2).
  rewrite Heq, Ht2 in Ht1. injection Ht1 as <-.
  assert (∃ fig, (setup +:+ "_task.pdf", fig) ∈ wt2) as (fig & Hfig).
  { unfold run_pass in Ht2.
    destruct (load_results task_pass fs2) as [res|e]; [|discriminate Ht2].
    exact (render_all_member task_pass task_labels res setups wt2 setup
             Ht2 Hsetup). }
  exists fig. split; apply commit_in.
  - rewrite N1. exact outputs_NoDup.
  - rewrite R1. cbn [fst]. apply elem_of_app. by right.
  - rewrite N2. exact outputs_NoDup.
  - rewrite R2. cbn [fst]. apply elem_of_app. by right.
Qed.

Lemma demo_agree : agree task_pass demo_files other_files.
Proof.
  intros setup trace sched Hs Ht Hc.
  unfold setups, traces, schedulers in *.
  repeat (apply elem_of_cons in Hs as [->|Hs]);
    [| | |by apply elem_of_nil in Hs];
    (repeat (apply elem_of_cons in Ht as [->|Ht]);
     [| | |by apply elem_of_nil in Ht]);
    (repeat (apply elem_of_cons in Hc as [->|Hc]);
     [| | |by apply elem_of_nil in Hc]);
    reflexivity.
Qed.

Lemma run_demo_files : (run demo_files).2 = None.
Proof.
  destruct (run_ok demo_files) as (wj & wt & _ & _ & ->);
    [apply demo_files_well_formed; repeat constructor ..|reflexivity].
Qed.

Lemma run_other_files : (run other_files).2 = None.
Proof.
  destruct (run_ok other_files) as (wj & wt & _ & _ & ->);
    [apply other_files_well_formed; repeat constructor ..|reflexivity].
Qed.

Lemma task_series_independent_witness :
  demo_files "./results/shell_setup_FCP/job_metrics.csv"
    ≠ other_files "./results/shell_setup_FCP/job_metrics.csv"
  ∧ run_pass task_pass task_labels demo_files
    = run_pass task_pass task_labels other_files
  ∧ ∀ setup, setup ∈ setups →
      ∀ d1 d2 : gmap string (list subplot),
        ∃ fig,
          commit (run demo_files).1 d1 !! (setup +:+ "_task.pdf") = Some fig
          ∧ commit (run other_files).1 d2 !! (setup +:+ "_task.pdf")
            = Some fig.
Proof.
  split; [discriminate|].
  apply (task_series_independent demo_files other_files);
    [exact demo_agree | exact run_demo_files | exact run_other_files].
Defined.

(** ** Labels and bars of a subplot *)

Lemma append_stats_lengths (res : table) (setup trace metric sched : string)
    (s s' : series) :
  append_stats res setup trace metric s sched = Ok s' →
  length (avg s') = length (avg s) + 1 ∧ length (std s') = length (std s) + 1
  ∧ length (mn s') = length (mn s) + 1 ∧ length (mx s') = length (mx s) + 1.
Proof.
  unfold append_stats.
  destruct (stat res setup trace sched metric 0) as [a|e]; [|discriminate].
  destruct (stat res setup trace sched metric 1) as [d|e]; [|discriminate].
  destruct (stat res setup trace sched metric 2) as [lo|e]; [|discriminate].
  destruct (stat res setup trace sched metric 3) as [hi|e]; [|discriminate].
  cbn [mbind result_bind mret result_ret]. intros H. injection H as <-.
  cbn [avg std mn mx]. rewrite !length_app. cbn [length]. by repeat split.
Qed.

Lemma collect_size (sz : series → nat) (p : pass) (res : table)
    (setup trace : string) (s : series) :
  p ∈ passes →
  (∀ metric sched s0 s1,
     append_stats res setup trace metric s0 sched = Ok s1 →
     sz s1 = sz s0 + 1) →
  collect p res setup trace = Ok s →
  sz s = sz {| avg := []; std := []; mn := []; mx := [] |} + 9.
Proof.
  intros Hp Hstep H. unfold collect in H.
  assert (∀ s0 metric s1,
            for_each schedulers (append_stats res setup trace metric) s0
            = Ok s1 → sz s1 = sz s0 + 3) as Hinner.
  { intros s0 metric s1 H1.
    rewrite (for_each_count sz 1 _ _ _ _
               (fun s2 sched s3 => Hstep metric sched s2 s3) H1).
    reflexivity. }
  rewrite (for_each_count sz 3 _ _ _ _ Hinner H).
  by rewrite (metrics_three p Hp).
Qed.

Lemma collect_lengths (p : pass) (res : table) (setup trace : string)
    (s : series) :
  p ∈ passes → collect p res setup trace = Ok s →
  length (avg s) = 9 ∧ length (std s) = 9
  ∧ length (mn s) = 9 ∧ length (mx s) = 9.
Proof.
  intros Hp H. repeat split.
  - apply (collect_size (fun s => length (avg s)) p res setup trace s Hp);
      [|exact H].
    intros metric sched s0 s1 H1.
    by apply append_stats_lengths in H1 as (? & ? & ? & ?).
  - apply (collect_size (fun s => length (std s)) p res setup trace s Hp);
      [|exact H].
    intros metric sched s0 s1 H1.
    by apply append_stats_lengths in H1 as (? & ? & ? & ?).
  - apply (collect_size (fun s => length (mn s)) p res setup trace s Hp);
      [|exact H].
    intros metric sched s0 s1 H1.
    by apply append_stats_lengths in H1 as (? & ? & ? & ?).
  - apply (collect_size (fun s => length (mx s)) p res setup trace s Hp);
      [|exact H].
    intros metric sched s0 s1 H1.
    by apply append_stats_lengths in H1 as (? & ? & ? & ?).
Qed.

(** What a rendered subplot is made of. *)
Lemma render_subplot_inv (p : pass)
    (labels : list npfloat → result (list text)) (res : table)
    (setup trace : string) (sp : subplot) :
  (p, labels) ∈ programs →
  render_subplot p labels res setup trace = Ok sp →
  ∃ s s' ts,
    collect p res setup trace = Ok s ∧ normalize p s = Ok s'
    ∧ labels (mx s') = Ok ts ∧ length (mx s') = 9
    ∧ sp = {| texts := ts;
              bars := [ {| bar_label := "MAX"; heights := mx s';
                           yerr := None |};
                        {| bar_label := "AVG"; heights := avg s';
                           yerr := Some (std s') |};
                        {| bar_label := "MIN"; heights := mn s';
                           yerr := None |} ] |}.
Proof.
  intros Hpl H. pose proof (programs_pass p labels Hpl) as Hp.
  unfold render_subplot in H.
  destruct (collect p res setup trace) as [s|e] eqn:Hs; [|discriminate H].
  cbn [mbind result_bind] in H.
  destruct (collect_lengths p res setup trace s Hp Hs) as (Ha & Hd & Hn & Hx).
  destruct (normalize_ok p s Hp Ha Hd Hn Hx) as (s' & Hs' & Hx').
  rewrite Hs' in H. cbn [mbind result_bind] in H.
  destruct (labels (mx s')) as [ts|e] eqn:Hts; [|discriminate H].
  cbn [mbind result_bind mret result_ret] in H. injection H as <-.
  by exists s, s', ts.
Qed.

(** C2, as the code has it.  In every subplot the labels of the second and
    third clusters sit at the maximum over the cluster's three normalised
    max-values (the heights of the MAX bars) plus 0.05, except that the job
    pass puts its second label at 0.05 when that maximum is nan. *)
Theorem labels_above_clusters (p : pass)
    (labels : list npfloat → result (list text)) (res : table)
    (setup trace : string) (sp : subplot) :
  (p, labels) ∈ programs →
  render_subplot p labels res setup trace = Ok sp →
  ∃ h top1 top2 t0 t1 t2,
    bars sp !! 0 = Some {| bar_label := "MAX"; heights := h; yerr := None |}
    ∧ cluster_top h 1 = Ok top1 ∧ cluster_top h 2 = Ok top2
    ∧ texts sp = [t0; t1; t2]
    ∧ text_y t2 = np_add top2 offset
    ∧ (np_isnan top1 = false → text_y t1 = np_add top1 offset)
    ∧ (p = task_pass → text_y t1 = np_add top1 offset)
    ∧ (p = job_pass → np_isnan top1 = true → text_y t1 = offset).
Proof.
  intros Hpl H.
  destruct (render_subplot_inv p labels res setup trace sp Hpl H)
    as (s & s' & ts & _ & _ & Hts & Hx & ->).
  destruct (length_nine (mx s') Hx) as (h0&h1&h2&h3&h4&h5&h6&h7&h8&Hmx).
  exists (mx s'). rewrite Hmx in Hts |- *.
  exists (foldl np_maximum h3 [h4; h5]), (foldl np_maximum h6 [h7; h8]).
  apply elem_of_cons in Hpl as [Hpl|Hpl];
    [|apply list_elem_of_singleton in Hpl]; injection Hpl as -> ->.
  - rewrite job_labels_nine in Hts. injection Hts as <-.
    eexists _, _, _. split; [reflexivity|]. split; [reflexivity|].
    split; [reflexivity|]. split; [reflexivity|]. cbn [text_y foldl].
    split; [reflexivity|]. split; [by intros ->|].
    split; [discriminate|]. by intros _ ->.
  - rewrite task_labels_nine in Hts. injection Hts as <-.
    eexists _, _, _. split; [reflexivity|]. split; [reflexivity|].
    split; [reflexivity|]. split; [reflexivity|]. cbn [text_y foldl].
    split; [reflexivity|]. split; [done|]. split; [done|]. discriminate.
Qed.

Lemma labels_above_clusters_witness :
  ∃ res sp,
    load_results job_pass demo_files = Ok res
    ∧ render_subplot job_pass job_labels res "setup" "shell" = Ok sp
    ∧ ∃ h top1 top2 t0 t1 t2,
        bars sp !! 0
          = Some {| bar_label := "MAX"; heights := h; yerr := None |}
        ∧ cluster_top h 1 = Ok top1 ∧ cluster_top h 2 = Ok top2
        ∧ texts sp = [t0; t1; t2]
        ∧ text_y t2 = np_add top2 offset
        ∧ (np_isnan top1 = false → text_y t1 = np_add top1 offset)
        ∧ (job_pass = task_pass → text_y t1 = np_add top1 offset)
        ∧ (job_pass = job_pass → np_isnan top1 = true → text_y t1 = offset).
Proof.
  destruct (load_results_ok job_pass demo_files
              (demo_files_well_formed job_pass ltac:(repeat constructor)))
    as (res & Hres).
  destruct (render_subplot_ok job_pass job_labels demo_files res
              ltac:(repeat constructor) Hres "setup" "shell"
              ltac:(repeat constructor) ltac:(repeat constructor))
    as (sp & Hsp).
  exists res, sp. split; [exact Hres|]. split; [exact Hsp|].
  apply (labels_above_clusters job_pass job_labels res "setup" "shell" sp);
    [repeat constructor | exact Hsp].
Defined.

Lemma summary_single (z : Z) :
  summary [z] = Ok [of_int z; Fin 0; of_int z; of_int z].
Proof.
  rewrite summary_cons. cbn [np_sum foldr length INR foldl sq_dev].
  rewrite Z.add_0_r.
  replace (IZR z / 1)%R with (IZR z) by field.
  replace (((IZR z - IZR z) * (IZR z - IZR z) + 0) / 1)%R with 0%R by field.
  rewrite sqrt_0. reflexivity.
Qed.

Lemma skewed_summarises : summarises skewed_stats skewed_cols.
Proof.
  do 4 (split; [reflexivity|]). intros k Hk.
  do 9 (destruct k as [|k];
        [eexists _, _, _, _, _; split; [reflexivity|];
         split; [discriminate|]; split; [apply summary_single|];
         by repeat split|]).
  lia.
Qed.

Lemma skewed_normalize :
  normalize job_pass skewed_stats = Ok skewed_normalized
  ∧ normalize task_pass skewed_stats = Ok skewed_normalized.
Proof.
  unfold skewed_stats. cbn [fmap list_fmap replicate].
  rewrite (normalize_nine job_pass), (normalize_nine task_pass)
    by repeat constructor.
  cbn [foldl]. unfold of_int, np_maximum, np_true_divide, Rmax. rdec.
  by split.
Qed.

(** C2 as stated fails.  With maxima 1, 2, 4 in the first group and 0, 0, 0
    in the second, the tallest bar of the first cluster is 4/4 = 1, but the
    first label of either pass sits at 2/4 + 0.05, above the first two
    bars only; and the second cluster's maximum is nan, while the job pass
    puts the second label at 0.05. *)
Lemma labels_not_above_top :
  summarises skewed_stats skewed_cols
  ∧ normalize job_pass skewed_stats = Ok skewed_normalized
  ∧ normalize task_pass skewed_stats = Ok skewed_normalized
  ∧ cluster_top (mx skewed_normalized) 0 = Ok (Fin (4 / 4))
  ∧ cluster_top (mx skewed_normalized) 1 = Ok NaN
  ∧ ∃ j0 j1 j2 t0 t1 t2,
      job_labels (mx skewed_normalized) = Ok [j0; j1; j2]
      ∧ task_labels (mx skewed_normalized) = Ok [t0; t1; t2]
      ∧ text_y j0 = Fin (2 / 4 + 5 / 100)
      ∧ text_y t0 = Fin (2 / 4 + 5 / 100)
      ∧ text_y j0 ≠ np_add (Fin (4 / 4)) offset
      ∧ text_y t0 ≠ np_add (Fin (4 / 4)) offset
      ∧ text_y j1 = offset
      ∧ text_y j1 ≠ np_add NaN offset.
Proof.
  split; [exact skewed_summarises|].
  split; [apply skewed_normalize|]. split; [apply skewed_normalize|].
  assert (Rmax (1 / 4) (2 / 4) = 2 / 4)%R as HR
    by (unfold Rmax; rdec; reflexivity).
  split.
  { cbn. unfold Rmax. rdec. reflexivity. }
  split; [reflexivity|].
  cbn [mx skewed_normalized].
  rewrite job_labels_nine, task_labels_nine.
  eexists _, _, _, _, _, _. split; [reflexivity|]. split; [reflexivity|].
  cbn [text_y foldl np_maximum np_isnan np_add offset]. rewrite HR.
  repeat split; try discriminate.
  - intros H. injection H as H. lra.
  - intros H. injection H as H. lra.
Qed.

(** * Further properties of the script *)

(** ** Where exceptions come from *)



Lemma int_inv (row : gmap string cell) (col : string) (z : Z) :
  int row col = Ok z → row !! col = Some (IntText z).
Proof.
  unfold int, dict_get. destruct (row !! col) as [[z'|]|]; try discriminate.
  cbn [mbind result_bind]. by intros [= ->].
Qed.


Lemma read_row_inv (p : pass) (row : gmap string cell)
    (l1 l2 l3 l1' l2' l3' : list Z) :
  read_row p (l1, l2, l3) row = Ok (l1', l2', l3') →
  ∃ x y z,
    l1' = l1 ++ [x] ∧ l2' = l2 ++ [y] ∧ l3' = l3 ++ [z]
    ∧ row !! (columns p).1.1 = Some (IntText x)
    ∧ row !! (columns p).1.2 = Some (IntText y)
    ∧ row !! (columns p).2 = Some (IntText z).
Proof.
  unfold read_row. destruct (columns p) as [[c1 c2] c3]. cbn [fst snd].
  destruct (int row c1) as [x|e] eqn:E1; [|discriminate].
  cbn [mbind result_bind].
  destruct (int row c2) as [y|e] eqn:E2; [|discriminate].
  cbn [mbind result_bind].
  destruct (int row c3) as [z|e] eqn:E3; [|discriminate].
  cbn [mbind result_bind mret result_ret]. intros [= <- <- <-].
  exists x, y, z. repeat split; by apply int_inv.
Qed.

(** The loop over the rows appends, per row and in file order, the three
    integers of the row to the three lists. *)
Lemma read_rows_inv (p : pass) (rows : list (gmap string cell))
    (l1 l2 l3 l1' l2' l3' : list Z) :
  for_each rows (read_row p) (l1, l2, l3) = Ok (l1', l2', l3') →
  ∃ xs ys zs,
    l1' = l1 ++ xs ∧ l2' = l2 ++ ys ∧ l3' = l3 ++ zs
    ∧ length xs = length rows ∧ length ys = length rows
    ∧ length zs = length rows
    ∧ ∀ i row, rows !! i = Some row →
        ∃ x y z,
          xs !! i = Some x ∧ ys !! i = Some y ∧ zs !! i = Some z
          ∧ row !! (columns p).1.1 = Some (IntText x)
          ∧ row !! (columns p).1.2 = Some (IntText y)
          ∧ row !! (columns p).2 = Some (IntText z).
Proof.
  revert l1 l2 l3. induction rows as [|row rows IH]; intros l1 l2 l3 H.
  - injection H as <- <- <-. exists [], [], [].
    rewrite !app_nil_r. repeat split. intros i row Hi. by destruct i.
  - cbn [for_each] in H.
    destruct (read_row p (l1, l2, l3) row) as [[[m1 m2] m3]|e] eqn:E;
      [|discriminate H].
    cbn [mbind result_bind] in H.
    destruct (read_row_inv _ _ _ _ _ _ _ _ E)
      as (x & y & z & -> & -> & -> & Hx & Hy & Hz).
    destruct (IH _ _ _ H)
      as (xs & ys & zs & -> & -> & -> & Lx & Ly & Lz & Hrows).
    exists (x :: xs), (y :: ys), (z :: zs).
    rewrite <- !app_assoc. cbn [app length]. rewrite Lx, Ly, Lz.
    repeat split. intros i r Hi. destruct i as [|i].
    + injection Hi as <-. by exists x, y, z.
    + by apply Hrows.
Qed.

(** X1.  When the rows of a file are read, the three lists have one entry
    per row, in file order, and entry i holds the integers of the three
    columns of row i. *)
Theorem read_rows_columns (p : pass) (rows : list (gmap string cell))
    (l1 l2 l3 : list Z) :
  for_each rows (read_row p) ([], [], []) = Ok (l1, l2, l3) →
  length l1 = length rows ∧ length l2 = length rows
  ∧ length l3 = length rows
  ∧ ∀ i row, rows !! i = Some row →
      ∃ x y z,
        l1 !! i = Some x ∧ l2 !! i = Some y ∧ l3 !! i = Some z
        ∧ row !! (columns p).1.1 = Some (IntText x)
        ∧ row !! (columns p).1.2 = Some (IntText y)
        ∧ row !! (columns p).2 = Some (IntText z).
Proof.
  intros H.
  destruct (read_rows_inv _ _ _ _ _ _ _ _ H)
    as (xs & ys & zs & -> & -> & -> & Lx & Ly & Lz & Hrows).
  cbn [app]. by repeat split.
Qed.

Lemma demo_rows_read :
  for_each [demo_row 1; demo_row 3] (read_row job_pass) ([], [], [])
  = Ok ([1; 3], [1; 3], [1; 3])%Z.
Proof. vm_compute. reflexivity. Qed.

Lemma read_rows_columns_witness :
  length [1; 3]%Z = length [demo_row 1; demo_row 3]
  ∧ length [1; 3]%Z = length [demo_row 1; demo_row 3]
  ∧ length [1; 3]%Z = length [demo_row 1; demo_row 3]
  ∧ ∀ i row, [demo_row 1; demo_row 3] !! i = Some row →
      ∃ x y z,
        [1; 3]%Z !! i = Some x ∧ [1; 3]%Z !! i = Some y
        ∧ [1; 3]%Z !! i = Some z
        ∧ row !! (columns job_pass).1.1 = Some (IntText x)
        ∧ row !! (columns job_pass).1.2 = Some (IntText y)
        ∧ row !! (columns job_pass).2 = Some (IntText z).
Proof.
  apply (read_rows_columns job_pass [demo_row 1; demo_row 3]).
  exact demo_rows_read.
Defined.

(** ** When loading succeeds *)






(** ** Exceptions come from loading only *)




(** ** The files written *)

Lemma render_all_prefix (p : pass)
    (labels : list npfloat → result (list text)) (res : table)
    (ss : list string) (w : list (string * list subplot)) (e : option exn) :
  render_all p labels res ss = (w, e) →
  w.*1 = take (length w) ((fun setup => setup +:+ suffix p) <$> ss)
  ∧ (length w ≤ length ss)%nat
  ∧ (length w = length ss ↔ e = None).
Proof.
  revert w e. induction ss as [|setup ss IH]; intros w e H.
  - injection H as <- <-. by repeat split.
  - cbn [render_all] in H.
    destruct (render_figure p labels res setup) as [fig|e1].
    + destruct (render_all p labels res ss) as [w' e'] eqn:E.
      injection H as <- <-. destruct (IH w' e' eq_refl) as (Hn & Hl & Hiff).
      cbn [fmap list_fmap fst length take]. split; [by f_equal|].
      split; [lia|]. rewrite <- Hiff. lia.
    + injection H as <- <-. cbn [length]. split; [reflexivity|].
      split; [lia|]. split; [lia|discriminate].
Qed.

Lemma run_pass_prefix (p : pass)
    (labels : list npfloat → result (list text)) (fs : files)
    (w : list (string * list subplot)) (e : option exn) :
  run_pass p labels fs = (w, e) →
  w.*1 = take (length w) ((fun setup => setup +:+ suffix p) <$> setups)
  ∧ (length w ≤ 3)%nat
  ∧ (length w = 3 ↔ e = None).
Proof.
  unfold run_pass. destruct (load_results p fs) as [res|e1].
  - apply render_all_prefix.
  - intros [= <- <-]. cbn [length]. split; [reflexivity|].
    split; [lia|]. split; [lia|discriminate].
Qed.

(** X5.  Whatever the input, the names the run saves to are the first n of
    the six output names, in order, for some n; nothing else is written,
    nothing is written twice, no task figure precedes a job figure, and
    n = 6 exactly when the run ends without exception. *)
Theorem run_writes_prefix (fs : files) :
  ∃ n, (n ≤ 6)%nat ∧ (run fs).1.*1 = take n outputs
    ∧ (n = 6 ↔ (run fs).2 = None).
Proof.
  unfold run.
  destruct (run_pass job_pass job_labels fs) as [wj ej] eqn:Ej.
  destruct (run_pass_prefix _ _ _ _ _ Ej) as (Nj & Lj & Ij).
  destruct ej as [e|].
  - exists (length wj). cbn [fst snd].
    assert (length wj < 3) as Hlt.
    { destruct (decide (length wj = 3)) as [E|E]; [|lia].
      apply Ij in E. discriminate E. }
    split; [lia|]. split.
    + rewrite Nj.
      destruct (length wj) as [|[|[|n]]]; [reflexivity..|exfalso; lia].
    + split; [lia|discriminate].
  - destruct (run_pass task_pass task_labels fs) as [wt et] eqn:Et.
    destruct (run_pass_prefix _ _ _ _ _ Et) as (Nt & Lt & It).
    assert (length wj = 3) as Hj by (by apply Ij).
    exists (3 + length wt). cbn [fst snd]. split; [lia|]. split.
    + rewrite fmap_app, Nj, Nt, Hj.
      destruct (length wt) as [|[|[|[|n]]]]; [reflexivity..|exfalso; lia].
    + rewrite <- It. lia.
Qed.

Lemma load_results_raise_exact (p : pass) (fs : files)
    (setup trace sched : string) (e : exn) :
  setup ∈ setups → trace ∈ traces → sched ∈ schedulers →
  load_metrics p fs setup trace sched = Raise e →
  (∀ s1 t1 c1, s1 ∈ setups → t1 ∈ traces → c1 ∈ schedulers →
     (∃ d, load_metrics p fs s1 t1 c1 = Ok d)
     ∨ load_metrics p fs s1 t1 c1 = Raise e) →
  load_results p fs = Raise e.
Proof.
  intros Hsetup Htrace Hsched Hraise Hall. unfold load_results.
  apply (build_raise_exact setups _ setup); [|exact Hsetup|].
  - intros s1 Hs1. apply build_ok_or. intros t1 Ht1.
    apply build_ok_or. intros c1 Hc1. by apply Hall.
  - apply (build_raise_exact traces _ trace); [|exact Htrace|].
    + intros t1 Ht1. apply build_ok_or. intros c1 Hc1. by apply Hall.
    + apply (build_raise_exact schedulers _ sched);
        [|exact Hsched|exact Hraise].
      intros c1 Hc1. by apply Hall.
Qed.







(** X7.  The run reads the 54 grid files and nothing else: two file systems
    that agree on them give the same saved figures and the same
    exception. *)
Theorem run_reads_grid_only (fs1 fs2 : files) :
  agree job_pass fs1 fs2 → agree task_pass fs1 fs2 → run fs1 = run fs2.
Proof.
  intros Hj Ht. unfold run, run_pass.
  by rewrite (load_results_agree _ _ _ Hj), (load_results_agree _ _ _ Ht).
Qed.

Ltac grid_cases Hs Ht Hc :=
  unfold setups, traces, schedulers in Hs, Ht, Hc;
  repeat (apply elem_of_cons in Hs as [->|Hs]);
    [| | |by apply elem_of_nil in Hs];
    (repeat (apply elem_of_cons in Ht as [->|Ht]);
     [| | |by apply elem_of_nil in Ht]);
    (repeat (apply elem_of_cons in Hc as [->|Hc]);
     [| | |by apply elem_of_nil in Hc]).

Lemma no_notes_agree (p : pass) :
  p ∈ passes → agree p demo_files no_notes_files.
Proof.
  intros Hp setup trace sched Hs Ht Hc.
  apply elem_of_cons in Hp as [->|Hp];
    [|apply list_elem_of_singleton in Hp as ->];
    grid_cases Hs Ht Hc; reflexivity.
Qed.

Lemma run_reads_grid_only_witness :
  demo_files "./results/notes.csv" ≠ no_notes_files "./results/notes.csv"
  ∧ run demo_files = run no_notes_files.
Proof.
  split; [discriminate|].
  apply (run_reads_grid_only demo_files no_notes_files);
    apply no_notes_agree; repeat constructor.
Defined.

(** X8.  When exactly one file of a pass cannot be loaded, the pass saves
    nothing and ends with the exception of that file, wherever the file
    stands in the grid. *)
Theorem single_defect (p : pass)
    (labels : list npfloat → result (list text)) (fs : files)
    (setup trace sched : string) (e : exn) :
  setup ∈ setups → trace ∈ traces → sched ∈ schedulers →
  load_metrics p fs setup trace sched = Raise e →
  (∀ s1 t1 c1, s1 ∈ setups → t1 ∈ traces → c1 ∈ schedulers →
     (s1, t1, c1) ≠ (setup, trace, sched) →
     ∃ d, load_metrics p fs s1 t1 c1 = Ok d) →
  run_pass p labels fs = ([], Some e).
Proof.
  intros Hsetup Htrace Hsched Hraise Hothers.
  unfold run_pass.
  rewrite (load_results_raise_exact p fs setup trace sched e
             Hsetup Htrace Hsched Hraise); [reflexivity|].
  intros s1 t1 c1 Hs1 Ht1 Hc1.
  destruct (decide ((s1, t1, c1) = (setup, trace, sched))) as [E|E].
  - injection E as -> -> ->. by right.
  - left. by apply Hothers.
Qed.

Lemma one_missing_others (s1 t1 c1 : string) :
  s1 ∈ setups → t1 ∈ traces → c1 ∈ schedulers →
  (s1, t1, c1) ≠ ("setup", "askalon", "Lottery") →
  ∃ d, load_metrics job_pass one_missing_files s1 t1 c1 = Ok d.
Proof.
  intros Hs Ht Hc Hne.
  grid_cases Hs Ht Hc; try (exfalso; by apply Hne);
    (eapply load_metrics_ok;
     [reflexivity | discriminate
     | intros row Hrow;
       apply elem_of_cons in Hrow as [->|Hrow];
       [|apply list_elem_of_singleton in Hrow as ->];
       apply demo_row_int; repeat constructor]).
Qed.

Lemma single_defect_witness :
  run_pass job_pass job_labels one_missing_files
  = ([], Some (FileNotFoundError
                 "./results/askalon_setup_Lottery/job_metrics.csv")).
Proof.
  apply (single_defect job_pass job_labels one_missing_files
           "setup" "askalon" "Lottery");
    [repeat constructor | repeat constructor | repeat constructor
    | reflexivity | exact one_missing_others].
Defined.

(** ** Rows that do not parse *)





(** ** The exceptions a run can end with *)






(** ** The loaded table *)

Lemma load_metrics_inv_full (p : pass) (fs : files)
    (setup trace sched : string) (d : gmap string (list npfloat)) :
  load_metrics p fs setup trace sched = Ok d →
  ∃ rows l1 l2 l3 s1 s2 s3,
    fs (csv_path p setup trace sched) = Some rows
    ∧ for_each rows (read_row p) ([], [], []) = Ok (l1, l2, l3)
    ∧ summary l1 = Ok s1 ∧ summary l2 = Ok s2 ∧ summary l3 = Ok s3
    ∧ d = <[(keys p).2 := s3]>
            (<[(keys p).1.2 := s2]> (<[(keys p).1.1 := s1]> ∅)).
Proof.
  unfold load_metrics, open_csv. destruct (keys p) as [[k1 k2] k3].
  destruct (fs (csv_path p setup trace sched)) as [rows|] eqn:Ef;
    [|discriminate].
  cbn [mbind result_bind].
  destruct (for_each rows (read_row p) ([], [], [])) as [[[l1 l2] l3]|e] eqn:Er;
    [|discriminate].
  cbn [mbind result_bind].
  destruct (summary l1) as [s1|e] eqn:E1; [|discriminate].
  cbn [mbind result_bind].
  destruct (summary l2) as [s2|e] eqn:E2; [|discriminate].
  cbn [mbind result_bind].
  destruct (summary l3) as [s3|e] eqn:E3; [|discriminate].
  cbn [mbind result_bind mret result_ret].
  intros H. injection H as <-.
  by exists rows, l1, l2, l3, s1, s2, s3.
Qed.

Lemma build_lookup_outside {V} (ks : list string) (f : string → result V)
    (d : gmap string V) (k : string) :
  build ks f = Ok d → k ∉ ks → d !! k = None.
Proof.
  intros H Hk.
  destruct (build_from_lookup ks f ∅ d H) as [_ Hout].
  by rewrite (Hout k Hk).
Qed.

(** X11.  In a loaded table, results[setup][trace][sched][key] is, for
    every triple of the grid and each of the three keys of the pass, the
    summary of the corresponding column of that triple's file, in the order
    mean, std, min, max; a setup outside the grid is a KeyError. *)
Theorem loaded_table_lookup (p : pass) (fs : files) (res : table)
    (setup trace sched : string) :
  p ∈ passes →
  load_results p fs = Ok res →
  setup ∈ setups → trace ∈ traces → sched ∈ schedulers →
  (∃ rows l1 l2 l3 s1 s2 s3,
     fs (csv_path p setup trace sched) = Some rows
     ∧ for_each rows (read_row p) ([], [], []) = Ok (l1, l2, l3)
     ∧ summary l1 = Ok s1 ∧ summary l2 = Ok s2 ∧ summary l3 = Ok s3
     ∧ ∀ i,
         stat res setup trace sched (keys p).1.1 i = list_get s1 i
         ∧ stat res setup trace sched (keys p).1.2 i = list_get s2 i
         ∧ stat res setup trace sched (keys p).2 i = list_get s3 i)
  ∧ ∀ other metric i,
      other ∉ setups →
      stat res other trace sched metric i = Raise (KeyError other).
Proof.
  intros Hp Hload Hs Ht Hc. split.
  - destruct (pass_shape p Hp)
      as (m1 & m2 & m3 & Hkeys & _ & H12 & H13 & H23).
    destruct (build_lookup _ _ _ setup Hload Hs) as (d1 & Hb1 & Hr1).
    destruct (build_lookup _ _ _ trace Hb1 Ht) as (d2 & Hb2 & Hr2).
    destruct (build_lookup _ _ _ sched Hb2 Hc) as (d3 & Hb3 & Hr3).
    destruct (load_metrics_inv_full _ _ _ _ _ _ Hb3)
      as (rows & l1 & l2 & l3 & s1 & s2 & s3 & Hf & Hrows & E1 & E2 & E3 & Hd).
    exists rows, l1, l2, l3, s1, s2, s3.
    do 5 (split; [assumption|]).
    rewrite Hkeys in Hd |- *. cbn [fst snd] in Hd |- *. subst d3.
    intros i. repeat split.
    + apply (stat_run res setup trace sched m1 d1 d2 _ s1 i Hr1 Hr2 Hr3).
      rewrite lookup_insert_ne by done. rewrite lookup_insert_ne by done.
      apply lookup_insert_eq.
    + apply (stat_run res setup trace sched m2 d1 d2 _ s2 i Hr1 Hr2 Hr3).
      rewrite lookup_insert_ne by done. apply lookup_insert_eq.
    + apply (stat_run res setup trace sched m3 d1 d2 _ s3 i Hr1 Hr2 Hr3).
      apply lookup_insert_eq.
  - intros other metric i Hother. unfold stat, dict_get.
    by rewrite (build_lookup_outside _ _ _ other Hload Hother).
Qed.

Lemma loaded_table_lookup_witness :
  ∃ res, load_results job_pass demo_files = Ok res
  ∧ (∃ rows l1 l2 l3 s1 s2 s3,
       demo_files (csv_path job_pass "setup" "shell" "DS") = Some rows
       ∧ for_each rows (read_row job_pass) ([], [], []) = Ok (l1, l2, l3)
       ∧ summary l1 = Ok s1 ∧ summary l2 = Ok s2 ∧ summary l3 = Ok s3
       ∧ ∀ i,
           stat res "setup" "shell" "DS" (keys job_pass).1.1 i = list_get s1 i
           ∧ stat res "setup" "shell" "DS" (keys job_pass).1.2 i
             = list_get s2 i
           ∧ stat res "setup" "shell" "DS" (keys job_pass).2 i
             = list_get s3 i)
  ∧ ∀ other metric i,
      other ∉ setups →
      stat res other "shell" "DS" metric i = Raise (KeyError other).
Proof.
  destruct (load_results_ok job_pass demo_files
              (demo_files_well_formed job_pass ltac:(repeat constructor)))
    as (res & Hres).
  exists res. split; [exact Hres|].
  apply (loaded_table_lookup job_pass demo_files res "setup" "shell" "DS");
    [repeat constructor | exact Hres | repeat constructor
    | repeat constructor | repeat constructor].
Defined.

(** ** Tick labels and bars *)

Lemma append_stats_inv (res : table) (setup trace metric sched : string)
    (s s' : series) :
  append_stats res setup trace metric s sched = Ok s' →
  ∃ a d lo hi,
    stat res setup trace sched metric 0 = Ok a
    ∧ stat res setup trace sched metric 1 = Ok d
    ∧ stat res setup trace sched metric 2 = Ok lo
    ∧ stat res setup trace sched metric 3 = Ok hi
    ∧ s' = {| avg := avg s ++ [a]; std := std s ++ [d];
              mn := mn s ++ [lo]; mx := mx s ++ [hi] |}.
Proof.
  unfold append_stats.
  destruct (stat res setup trace sched metric 0) as [a|e]; [|discriminate].
  destruct (stat res setup trace sched metric 1) as [d|e]; [|discriminate].
  destruct (stat res setup trace sched metric 2) as [lo|e]; [|discriminate].
  destruct (stat res setup trace sched metric 3) as [hi|e]; [|discriminate].
  cbn [mbind result_bind mret result_ret]. intros H. injection H as <-.
  by exists a, d, lo, hi.
Qed.

Ltac step_collect H :=
  match type of H with
  | context [append_stats ?r ?a ?b ?m ?s ?c] =>
      let E := fresh "E" in
      destruct (append_stats r a b m s c) as [?|?] eqn:E; [|discriminate H];
      cbn [mbind result_bind] in H;
      apply append_stats_inv in E as (? & ? & ? & ? & ? & ? & ? & ? & ->);
      cbn [avg std mn mx app] in H
  end.

(** X12.  The bars line up with their tick labels: each of the four lists
    composed for a subplot has nine entries, as many as there are bar
    positions and tick labels, and entry k holds the statistic of the
    scheduler named by tick label k (scheduler k mod 3) for metric k / 3. *)
Theorem ticks_match_bars (p : pass) (res : table) (setup trace : string)
    (s : series) :
  p ∈ passes →
  collect p res setup trace = Ok s →
  length (xticks p) = length pos
  ∧ length (avg s) = length pos ∧ length (std s) = length pos
  ∧ length (mn s) = length pos ∧ length (mx s) = length pos
  ∧ ∀ k, k < 9 →
      ∃ sched metric a d lo hi,
        xticks p !! k = Some sched
        ∧ schedulers !! (k mod 3) = Some sched
        ∧ metrics p !! (k / 3) = Some metric
        ∧ avg s !! k = Some a ∧ std s !! k = Some d
        ∧ mn s !! k = Some lo ∧ mx s !! k = Some hi
        ∧ stat res setup trace sched metric 0 = Ok a
        ∧ stat res setup trace sched metric 1 = Ok d
        ∧ stat res setup trace sched metric 2 = Ok lo
        ∧ stat res setup trace sched metric 3 = Ok hi.
Proof.
  intros Hp H.
  destruct (collect_lengths p res setup trace s Hp H) as (La & Ld & Ln & Lx).
  rewrite La, Ld, Ln, Lx.
  apply elem_of_cons in Hp as [->|Hp];
    [|apply list_elem_of_singleton in Hp as ->];
    (do 5 (split; [reflexivity|]));
    unfold collect in H; cbn [metrics job_pass task_pass for_each schedulers] in H;
    do 9 step_collect H; injection H as <-; cbn [avg std mn mx];
    intros k Hk;
    do 9 (destruct k as [|k];
          [eexists _, _, _, _, _, _;
           do 7 (split; [reflexivity|]); by repeat split|]);
    lia.
Qed.

Lemma ticks_match_bars_witness :
  ∃ res s,
    load_results task_pass demo_files = Ok res
    ∧ collect task_pass res "setup-distributed" "pegasus" = Ok s
    ∧ length (xticks task_pass) = length pos
    ∧ length (avg s) = length pos ∧ length (std s) = length pos
    ∧ length (mn s) = length pos ∧ length (mx s) = length pos
    ∧ ∀ k, k < 9 →
        ∃ sched metric a d lo hi,
          xticks task_pass !! k = Some sched
          ∧ schedulers !! (k mod 3) = Some sched
          ∧ metrics task_pass !! (k / 3) = Some metric
          ∧ avg s !! k = Some a ∧ std s !! k = Some d
          ∧ mn s !! k = Some lo ∧ mx s !! k = Some hi
          ∧ stat res "setup-distributed" "pegasus" sched metric 0 = Ok a
          ∧ stat res "setup-distributed" "pegasus" sched metric 1 = Ok d
          ∧ stat res "setup-distributed" "pegasus" sched metric 2 = Ok lo
          ∧ stat res "setup-distributed" "pegasus" sched metric 3 = Ok hi.
Proof.
  destruct (load_results_ok task_pass demo_files
              (demo_files_well_formed task_pass ltac:(repeat constructor)))
    as (res & Hres).
  destruct (collect_loaded task_pass demo_files res
              "setup-distributed" "pegasus" ltac:(repeat constructor) Hres
              ltac:(repeat constructor) ltac:(repeat constructor))
    as (s & cols & Hs & _).
  exists res, s. split; [exact Hres|]. split; [exact Hs|].
  apply (ticks_match_bars task_pass res "setup-distributed" "pegasus" s);
    [repeat constructor | exact Hs].
Defined.

(** ** More on the aggregation *)

Lemma np_sum_perm (l l' : list Z) : l ≡ₚ l' → np_sum l = np_sum l'.
Proof.
  induction 1 as [|x l l' _ IH|x y l|l l' l'' _ IH1 _ IH2];
    unfold np_sum in *; cbn [foldr]; lia.
Qed.

Lemma sq_dev_perm (mu : R) (l l' : list Z) :
  l ≡ₚ l' → sq_dev mu l = sq_dev mu l'.
Proof.
  induction 1 as [|x l l' _ IH|x y l|l l' l'' _ IH1 _ IH2];
    unfold sq_dev in *; cbn [foldr].
  - reflexivity.
  - by rewrite IH.
  - ring.
  - by rewrite IH1.
Qed.

Lemma is_minimum_unique (a b : Z) (l : list Z) :
  is_minimum a l → is_minimum b l → a = b.
Proof.
  intros [Ha Hla] [Hb Hlb]. pose proof (Hla b Hb). pose proof (Hlb a Ha). lia.
Qed.

Lemma is_maximum_unique (a b : Z) (l : list Z) :
  is_maximum a l → is_maximum b l → a = b.
Proof.
  intros [Ha Hla] [Hb Hlb]. pose proof (Hla b Hb). pose proof (Hlb a Ha). lia.
Qed.

Lemma np_min_perm (l l' : list Z) :
  l ≡ₚ l' → np_min (of_int <$> l) = np_min (of_int <$> l').
Proof.
  intros Hperm. destruct l as [|x xs], l' as [|y ys].
  - reflexivity.
  - by apply Permutation_nil_cons in Hperm.
  - symmetry in Hperm. by apply Permutation_nil_cons in Hperm.
  - rewrite !np_min_int. do 2 f_equal.
    apply (is_minimum_unique _ _ (y :: ys)); [|apply foldl_Zmin_is_minimum].
    destruct (foldl_Zmin_is_minimum xs x) as [Hin Hlb]. split.
    + by rewrite <- Hperm.
    + intros z Hz. apply Hlb. by rewrite Hperm.
Qed.

Lemma np_max_perm (l l' : list Z) :
  l ≡ₚ l' → np_max (of_int <$> l) = np_max (of_int <$> l').
Proof.
  intros Hperm. destruct l as [|x xs], l' as [|y ys].
  - reflexivity.
  - by apply Permutation_nil_cons in Hperm.
  - symmetry in Hperm. by apply Permutation_nil_cons in Hperm.
  - rewrite !np_max_int. do 2 f_equal.
    apply (is_maximum_unique _ _ (y :: ys)); [|apply foldl_Zmax_is_maximum].
    destruct (foldl_Zmax_is_maximum xs x) as [Hin Hub]. split.
    + by rewrite <- Hperm.
    + intros z Hz. apply Hub. by rewrite Hperm.
Qed.

(** X13.  The summary of a column does not depend on the order of the
    rows: reordering the rows of a file changes neither mean, deviation,
    minimum nor maximum, nor whether the aggregation raises. *)
Theorem summary_permutation (l l' : list Z) :
  l ≡ₚ l' → summary l = summary l'.
Proof.
  intros Hperm. unfold summary, np_std, np_var, np_mean.
  rewrite (np_sum_perm l l' Hperm), (Permutation_length Hperm).
  rewrite (np_min_perm l l' Hperm), (np_max_perm l l' Hperm).
  destruct (np_true_divide (of_int (np_sum l')) (Fin (INR (length l'))));
    try reflexivity.
  by rewrite (sq_dev_perm r l l' Hperm).
Qed.

Lemma summary_permutation_witness :
  summary [3; 1; 2]%Z = summary [1; 2; 3]%Z.
Proof.
  apply (summary_permutation [3; 1; 2]%Z [1; 2; 3]%Z).
  apply (Permutation_cons_append [1; 2]%Z 3%Z).
Defined.




Lemma Fin_inj (a b : R) : Fin a = Fin b → a = b.
Proof. congruence. Qed.



(** ** The scale of the normalised bars *)




Lemma Rmax_div_pos (a b m : R) :
  (0 < m)%R → Rmax (a / m) (b / m) = (Rmax a b / m)%R.
Proof.
  intros Hm. unfold Rmax.
  destruct (Rle_dec a b) as [H|H], (Rle_dec (a / m) (b / m)) as [H'|H'];
    try reflexivity; exfalso.
  - apply H'. by apply div_le_pos.
  - apply H. apply (Rmult_le_reg_r (/ m)); [|exact H'].
    by apply Rinv_0_lt_compat.
Qed.

Lemma summarises_finite (s : series) (cols : list (list Z)) (k : nat) :
  summarises s cols → k < 9 → ∃ r, mx s !! k = Some (Fin r).
Proof.
  intros (_ & _ & _ & _ & H) Hk.
  destruct (H k Hk) as (col & a & d & lo & hi & _ & Hne & Hsum & _ & _ & _ & Hx).
  destruct (summary_finite col a d lo hi Hne Hsum)
    as (_ & _ & _ & rhi & _ & _ & _ & -> & _).
  by exists rhi.
Qed.

(** The three raw max-values of a group and their maximum. *)
Lemma group_finite (l : list npfloat) (i : nat) :
  length l = 9 → i < 3 →
  (∀ k, k < 9 → ∃ r, l !! k = Some (Fin r)) →
  ∃ r0 r1 r2 : R,
    l !! (i * 3) = Some (Fin r0) ∧ l !! (i * 3 + 1) = Some (Fin r1)
    ∧ l !! (i * 3 + 2) = Some (Fin r2)
    ∧ np_max (slice l (i * 3) ((i + 1) * 3))
      = Ok (Fin (Rmax (Rmax r0 r1) r2)).
Proof.
  intros Hl Hi Hfin.
  destruct (Hfin (i * 3) ltac:(lia)) as (r0 & H0).
  destruct (Hfin (i * 3 + 1) ltac:(lia)) as (r1 & H1).
  destruct (Hfin (i * 3 + 2) ltac:(lia)) as (r2 & H2).
  exists r0, r1, r2. do 3 (split; [assumption|]).
  destruct (length_nine l Hl) as (h0&h1&h2&h3&h4&h5&h6&h7&h8&->).
  destruct i as [|[|[|i]]]; [| | |lia];
    cbn in H0, H1, H2; injection H0 as ->; injection H1 as ->;
    injection H2 as ->; reflexivity.
Qed.

Lemma Ok_inj {A} (a b : A) : Ok a = Ok b → a = b.
Proof. congruence. Qed.










(** ** Where the labels sit *)

Lemma normalized_mx_group (p : pass) (s : series) (cols : list (list Z))
    (i : nat) (m : R) :
  p ∈ passes → summarises s cols → i < 3 →
  np_max (slice (mx s) (i * 3) ((i + 1) * 3)) = Ok (Fin m) →
  m ≠ 0%R →
  ∃ s' (r0 r1 r2 : R),
    normalize p s = Ok s' ∧ length (mx s') = 9
    ∧ mx s !! (i * 3) = Some (Fin r0)
    ∧ mx s !! (i * 3 + 1) = Some (Fin r1)
    ∧ mx s !! (i * 3 + 2) = Some (Fin r2)
    ∧ Rmax (Rmax r0 r1) r2 = m
    ∧ mx s' !! (i * 3) = Some (Fin (r0 / m))
    ∧ mx s' !! (i * 3 + 1) = Some (Fin (r1 / m))
    ∧ mx s' !! (i * 3 + 2) = Some (Fin (r2 / m)).
Proof.
  intros Hp Hsum Hi Hd Hm.
  pose proof Hsum as (Ha & Hs & Hn & Hx & _).
  destruct (group_finite (mx s) i Hx Hi
              (fun k Hk => summarises_finite s cols k Hsum Hk))
    as (r0 & r1 & r2 & E0 & E1 & E2 & Hmax).
  rewrite Hd in Hmax. apply Ok_inj, Fin_inj in Hmax.
  destruct (normalize_lookup p s i (Fin m) Hp Ha Hs Hn Hx Hi Hd)
    as (s' & Hrun & _ & _ & _ & Lx & Hk).
  exists s', r0, r1, r2.
  split; [exact Hrun|]. split; [exact Lx|].
  do 3 (split; [assumption|]). split; [by symmetry|].
  destruct (Hk (i * 3) ltac:(lia)) as (_ & _ & _ & X0).
  destruct (Hk (i * 3 + 1) ltac:(lia)) as (_ & _ & _ & X1).
  destruct (Hk (i * 3 + 2) ltac:(lia)) as (_ & _ & _ & X2).
  rewrite X0, X1, X2, E0, E1, E2, !scaled_fin by exact Hm. by repeat split.
Qed.

Lemma top_of_normalized (r0 r1 r2 m : R) :
  (0 < m)%R → Rmax (Rmax r0 r1) r2 = m →
  np_add (foldl np_maximum (Fin (r0 / m)) [Fin (r1 / m); Fin (r2 / m)]) offset
  = Fin (1 + 5 / 100).
Proof.
  intros Hm Hmax. cbn [foldl np_maximum np_add offset].
  rewrite !Rmax_div_pos, Hmax by exact Hm. do 2 f_equal. field. lra.
Qed.

(** X17.  For the second and the third cluster, a strictly positive raw
    maximum puts the label at exactly 1 + 0.05 in both passes: the tallest
    bar of a normalised cluster has height 1. *)
Theorem upper_labels_at_top (p : pass)
    (labels : list npfloat → result (list text)) (s : series)
    (cols : list (list Z)) (i : nat) (m : R) :
  (p, labels) ∈ programs → summarises s cols → 1 ≤ i < 3 →
  np_max (slice (mx s) (i * 3) ((i + 1) * 3)) = Ok (Fin m) →
  (0 < m)%R →
  ∃ s' ts t,
    normalize p s = Ok s' ∧ labels (mx s') = Ok ts
    ∧ ts !! i = Some t ∧ text_y t = Fin (1 + 5 / 100).
Proof.
  intros Hpl Hsum Hi Hd Hm.
  pose proof (programs_pass p labels Hpl) as Hp.
  destruct (normalized_mx_group p s cols i m Hp Hsum ltac:(lia) Hd
              ltac:(lra))
    as (s' & r0 & r1 & r2 & Hrun & Lx & _ & _ & _ & Hmax & X0 & X1 & X2).
  exists s'.
  destruct (length_nine (mx s') Lx) as (h0&h1&h2&h3&h4&h5&h6&h7&h8&Hmx).
  rewrite Hmx in X0, X1, X2 |- *.
  pose proof (top_of_normalized r0 r1 r2 m Hm Hmax) as Htop.
  apply elem_of_cons in Hpl as [Hpl|Hpl];
    [|apply list_elem_of_singleton in Hpl]; injection Hpl as -> ->;
    [rewrite job_labels_nine | rewrite task_labels_nine];
    (destruct i as [|[|[|i]]]; [lia| | |lia]);
    cbn in X0, X1, X2; injection X0 as ->; injection X1 as ->;
    injection X2 as ->; eexists _, _;
    (split; [exact Hrun|]); (split; [reflexivity|]);
    (split; [reflexivity|]); cbn [text_y]; exact Htop.
Qed.

Lemma sample_stats_second :
  np_max (slice (mx sample_stats) (1 * 3) ((1 + 1) * 3)) = Ok (Fin 1).
Proof. cbn. unfold Rmax. rdec. reflexivity. Qed.

Lemma upper_labels_at_top_witness :
  ∃ s' ts t,
    normalize job_pass sample_stats = Ok s' ∧ job_labels (mx s') = Ok ts
    ∧ ts !! 1 = Some t ∧ text_y t = Fin (1 + 5 / 100).
Proof.
  apply (upper_labels_at_top job_pass job_labels sample_stats sample_cols 1 1);
    [left | exact sample_summarises | lia | exact sample_stats_second | lra].
Defined.



(** ** Normalising twice *)

Lemma divide_by_one (x : npfloat) : np_true_divide x (Fin 1) = x.
Proof.
  destruct x as [r| | |]; unfold np_true_divide; rdec; try reflexivity.
  all: f_equal; field.
Qed.

Lemma group_top_one (r0 r1 r2 m : R) :
  (0 < m)%R →
  foldl np_maximum (Fin r0) [Fin r1; Fin r2] = Fin m →
  foldl np_maximum (np_true_divide (Fin r0) (Fin m))
    [np_true_divide (Fin r1) (Fin m); np_true_divide (Fin r2) (Fin m)]
  = Fin 1.
Proof.
  intros Hm H. cbn [foldl np_maximum] in H. apply Fin_inj in H.
  rewrite !np_true_divide_fin by lra. cbn [foldl np_maximum].
  rewrite !Rmax_div_pos, H by exact Hm. f_equal. field. lra.
Qed.

(** X19.  Normalising is idempotent where it is meaningful: when the raw
    maximum of each of the three groups is strictly positive, running the
    loop again on its own result changes nothing, since every group of the
    result has maximum 1. *)
Theorem normalize_idempotent (p : pass) (s s' : series)
    (cols : list (list Z)) :
  p ∈ passes → summarises s cols →
  (∀ i, i < 3 →
     ∃ m, np_max (slice (mx s) (i * 3) ((i + 1) * 3)) = Ok (Fin m)
       ∧ (0 < m)%R) →
  normalize p s = Ok s' →
  normalize p s' = Ok s'.
Proof.
  intros Hp Hsum Hpos H.
  pose proof Hsum as (Ha & Hs & Hn & Hx & _).
  destruct (Hpos 0 ltac:(lia)) as (m0 & G0 & P0).
  destruct (Hpos 1 ltac:(lia)) as (m1 & G1 & P1).
  destruct (Hpos 2 ltac:(lia)) as (m2 & G2 & P2).
  destruct (summarises_finite s cols 0 Hsum ltac:(lia)) as (r0 & F0).
  destruct (summarises_finite s cols 1 Hsum ltac:(lia)) as (r1 & F1).
  destruct (summarises_finite s cols 2 Hsum ltac:(lia)) as (r2 & F2).
  destruct (summarises_finite s cols 3 Hsum ltac:(lia)) as (r3 & F3).
  destruct (summarises_finite s cols 4 Hsum ltac:(lia)) as (r4 & F4).
  destruct (summarises_finite s cols 5 Hsum ltac:(lia)) as (r5 & F5).
  destruct (summarises_finite s cols 6 Hsum ltac:(lia)) as (r6 & F6).
  destruct (summarises_finite s cols 7 Hsum ltac:(lia)) as (r7 & F7).
  destruct (summarises_finite s cols 8 Hsum ltac:(lia)) as (r8 & F8).
  destruct s as [a sd lo hi]. cbn [avg std mn mx] in *.
  destruct (length_nine a Ha) as (a0&a1&a2&a3&a4&a5&a6&a7&a8&->).
  destruct (length_nine sd Hs) as (s0&s1&s2&s3&s4&s5&s6&s7&s8&->).
  destruct (length_nine lo Hn) as (l0&l1&l2&l3&l4&l5&l6&l7&l8&->).
  destruct (length_nine hi Hx) as (h0&h1&h2&h3&h4&h5&h6&h7&h8&->).
  cbn in F0, F1, F2, F3, F4, F5, F6, F7, F8.
  injection F0 as ->. injection F1 as ->. injection F2 as ->.
  injection F3 as ->. injection F4 as ->. injection F5 as ->.
  injection F6 as ->. injection F7 as ->. injection F8 as ->.
  cbn [slice take drop Nat.mul Nat.add Nat.sub np_max] in G0, G1, G2.
  apply Ok_inj in G0, G1, G2.
  rewrite (normalize_nine p) in H by exact Hp. cbv zeta in H.
  rewrite G0, G1, G2 in H. apply Ok_inj in H. subst s'.
  rewrite (normalize_nine p) by exact Hp. cbv zeta.
  rewrite (group_top_one r0 r1 r2 m0 P0 G0),
    (group_top_one r3 r4 r5 m1 P1 G1), (group_top_one r6 r7 r8 m2 P2 G2).
  by rewrite !divide_by_one.
Qed.

Lemma summary_one_three :
  summary [1; 3]%Z = Ok [Fin 2; Fin 1; Fin 1; Fin 3].
Proof.
  rewrite summary_cons.
  assert (IZR (np_sum [1; 3]%Z) / INR (length [1; 3]%Z) = 2)%R as ->.
  { simpl. rewrite !plus_IZR. lra. }
  assert (sq_dev 2 [1; 3]%Z / INR (length [1; 3]%Z) = 1)%R as ->.
  { simpl. lra. }
  rewrite sqrt_1. reflexivity.
Qed.

Lemma positive_summarises : summarises positive_stats positive_cols.
Proof.
  do 4 (split; [reflexivity|]). intros k Hk.
  exists [1; 3]%Z, (Fin 2), (Fin 1), (Fin 1), (Fin 3).
  do 9 (destruct k as [|k];
        [split; [reflexivity|]; split; [discriminate|];
         split; [exact summary_one_three|]; by repeat split|]).
  lia.
Qed.

Lemma positive_tops (i : nat) :
  i < 3 →
  ∃ m, np_max (slice (mx positive_stats) (i * 3) ((i + 1) * 3)) = Ok (Fin m)
    ∧ (0 < m)%R.
Proof.
  intros Hi. exists 3%R. split; [|lra].
  destruct i as [|[|[|i]]]; [| | |lia]; cbn; unfold Rmax; rdec; reflexivity.
Qed.

Lemma normalize_idempotent_witness :
  ∃ s', normalize job_pass positive_stats = Ok s'
    ∧ normalize job_pass s' = Ok s'.
Proof.
  destruct (normalize_ok job_pass positive_stats ltac:(left)
              eq_refl eq_refl eq_refl eq_refl) as (s' & Hs' & _).
  exists s'. split; [exact Hs'|].
  apply (normalize_idempotent job_pass positive_stats s' positive_cols);
    [left | exact positive_summarises | exact positive_tops | exact Hs'].
Defined.

(** ** From the files to the bars *)


